(** * calculator.py: an infix calculator (tokenizer, parenthesis check,
    shunting-yard conversion, postfix evaluation) and its command loop.

    The development embeds [CustomCalc] and the command loop of
    [src/calculator.py] and proves properties of the embedding.

    Conventions of the embedding.
    - A Python [str] is a [string]; a character is a code point below 256
      held in an [ascii] (the Latin-1 range).  Inputs with code points
      above 255 are outside the model.
    - A Python [int] is a [Z]; a Python [float] is an IEEE-754 binary64
      value, a [spec_float] used at precision 53 and [emax] 1024.
    - A Python list used as a stack ([stack.append], [stack.pop],
      [stack[-1]]) is a Rocq list whose HEAD is the LAST element of the
      Python list.  A Python list that is only appended to and iterated
      ([token_list], [output_list]) is a Rocq list in the same order.
    - A call either returns, raises an exception, or (for the one [while]
      loop that is not bounded by a collection) runs out of fuel. *)

From Stdlib Require Import ZArith String Ascii List Lia Bool.
From Stdlib Require Import Floats.SpecFloat.
From stdpp Require Import base option list strings gmap.

Open Scope string_scope.
Open Scope list_scope.

(** stdpp blocks the unfolding of string concatenation; the scanner lemmas
    below compute with it. *)
#[local] Arguments String.append : simpl nomatch.

(** ** Exceptions and outcomes *)

(** The exception classes the program can meet.  The first four are the
    subclasses of [CalculatorError] declared in the source (lines 10-44);
    the next seven are built-in subclasses of [Exception]; [SystemExit] is
    what [sys.exit] raises and is NOT a subclass of [Exception]. *)
Inductive exn : Type :=
  | EmptyInputError
  | ParenthesesError
  | UnexpectedInput (symbol : ascii)
  | NothingToDoError
  | IndexError
  | KeyError
  | TypeError
  | ValueError
  | OverflowError
  | ZeroDivisionError
  | EOFError
  | SystemExit.

Inductive outcome (A : Type) : Type :=
  | Return (a : A)
  | Raise (e : exn)
  | OutOfFuel.

Arguments Return {A} a.
Arguments Raise {A} e.
Arguments OutOfFuel {A}.

Definition bind {A B : Type} (m : outcome A) (k : A -> outcome B) : outcome B :=
  match m with
  | Return a => k a
  | Raise e => Raise e
  | OutOfFuel => OutOfFuel
  end.

Notation "'let*' x ':=' m 'in' k" := (bind m (fun x => k))
  (at level 10, x name, m at level 100, k at level 200).

(** [try: m except e0: h] *)
Definition try_except {A : Type} (m : outcome A) (caught : exn -> bool)
    (h : outcome A) : outcome A :=
  match m with
  | Raise e => if caught e then h else Raise e
  | _ => m
  end.

Definition is_CalculatorError (e : exn) : bool :=
  match e with
  | EmptyInputError | ParenthesesError | UnexpectedInput _ | NothingToDoError => true
  | _ => false
  end.

(** [isinstance(e, Exception)]: everything here but [SystemExit]. *)
Definition is_Exception (e : exn) : bool :=
  match e with
  | SystemExit => false
  | _ => true
  end.

(** ** Python strings *)

Module PyStr.

Definition code (c : ascii) : N := N_of_ascii c.

(** ASCII decimal digits ['0'..'9']. *)
Definition isdecimal (c : ascii) : bool :=
  ((48 <=? code c) && (code c <=? 57))%N.

(** [str.isdigit] on one code point below 256: the ASCII digits and the
    superscripts U+00B2, U+00B3, U+00B9. *)
Definition isdigit (c : ascii) : bool :=
  isdecimal c || (code c =? 178)%N || (code c =? 179)%N || (code c =? 185)%N.

(** [s[i]] for [i >= 0]. *)
Definition index (s : string) (i : nat) : outcome ascii :=
  match String.get i s with
  | Some c => Return c
  | None => Raise IndexError
  end.

(** [s[start:]] for [start >= 0]. *)
Fixpoint slice_from (start : nat) (s : string) : string :=
  match start, s with
  | O, _ => s
  | S n, String _ s' => slice_from n s'
  | S _, EmptyString => EmptyString
  end.

(** [s.replace(old, '')] for a one-character [old]. *)
Fixpoint remove_char (old : ascii) (s : string) : string :=
  match s with
  | EmptyString => EmptyString
  | String c s' =>
      if Ascii.eqb c old then remove_char old s'
      else String c (remove_char old s')
  end.

(** [c in s] for a character [c]. *)
Fixpoint contains (c : ascii) (s : string) : bool :=
  match s with
  | EmptyString => false
  | String d s' => Ascii.eqb d c || contains c s'
  end.

(** Number of occurrences of [c]. *)
Fixpoint count (c : ascii) (s : string) : nat :=
  match s with
  | EmptyString => 0
  | String d s' => (if Ascii.eqb d c then 1 else 0) + count c s'
  end.

Fixpoint all (p : ascii -> bool) (s : string) : bool :=
  match s with
  | EmptyString => true
  | String c s' => p c && all p s'
  end.

(** The last character, [s[-1]] when there is one. *)
Fixpoint last_char (s : string) : option ascii :=
  match s with
  | EmptyString => None
  | String c EmptyString => Some c
  | String _ s' => last_char s'
  end.

(** The one-character string. *)
Definition chr (c : ascii) : string := String c EmptyString.

(** [str.isspace] on one code point below 256: U+0009..U+000D,
    U+001C..U+0020, U+0085 and U+00A0.  The program never calls it; it
    says which characters are white space. *)
Definition isspace (c : ascii) : bool :=
  ((9 <=? code c) && (code c <=? 13) || (28 <=? code c) && (code c <=? 32)
   || (code c =? 133) || (code c =? 160))%N.

(** [s] without the characters for which [p] holds. *)
Fixpoint remove_if (p : ascii -> bool) (s : string) : string :=
  match s with
  | EmptyString => EmptyString
  | String c s' => if p c then remove_if p s' else String c (remove_if p s')
  end.

(** The horizontal tab, U+0009. *)
Definition tab : ascii := "009"%char.

End PyStr.

(** ** Python numbers *)

Module PyNum.

(** binary64 *)
Definition prec : Z := 53.
Definition emax : Z := 1024.

Inductive number : Type :=
  | PyInt (z : Z)
  | PyFloat (f : spec_float).

Definition is_float (v : number) : bool :=
  match v with
  | PyFloat _ => true
  | PyInt _ => false
  end.

(** The correctly rounded (nearest, ties to even) quotient [n / d] of a
    natural number by a positive one, with sign [sign] (kept on a zero). *)
Definition round_quotient (sign : bool) (n : Z) (d : positive) : spec_float :=
  let '(q, e, l) := SFdiv_core_binary prec emax (Z.abs n) 0 (Zpos d) 0 in
  binary_round_aux prec emax sign q e l.

Definition is_infinite (f : spec_float) : bool :=
  match f with
  | S754_infinity _ => true
  | _ => false
  end.

Definition is_zero (f : spec_float) : bool :=
  match f with
  | S754_zero _ => true
  | _ => false
  end.

(** [float(z)] for an [int]: correctly rounded, [OverflowError] when the
    rounded value is not finite. *)
Definition float_of_int (z : Z) : outcome spec_float :=
  let f := binary_normalize prec emax z 0 false in
  if is_infinite f then Raise OverflowError else Return f.

(** The conversion every float operation applies to its operands. *)
Definition to_float (v : number) : outcome spec_float :=
  match v with
  | PyFloat f => Return f
  | PyInt z => float_of_int z
  end.

(** A binary operation that is exact on two [int]s and otherwise
    converts both operands (left first) and works on floats. *)
Definition arith (fi : Z -> Z -> Z)
    (ff : spec_float -> spec_float -> spec_float) (a b : number)
    : outcome number :=
  match a, b with
  | PyInt x, PyInt y => Return (PyInt (fi x y))
  | _, _ =>
      let* x := to_float a in
      let* y := to_float b in
      Return (PyFloat (ff x y))
  end.

Definition add : number -> number -> outcome number :=
  arith Z.add (SFadd prec emax).
Definition sub : number -> number -> outcome number :=
  arith Z.sub (SFsub prec emax).
Definition mul : number -> number -> outcome number :=
  arith Z.mul (SFmul prec emax).

(** [a / b] (true division).  On two [int]s: [ZeroDivisionError] for a
    zero divisor, else the correctly rounded quotient, [OverflowError]
    when it is not finite.  Otherwise both operands are converted first
    (so a conversion failure comes before the zero test), then a zero
    divisor raises [ZeroDivisionError]. *)
Definition truediv (a b : number) : outcome number :=
  match a, b with
  | PyInt x, PyInt y =>
      match y with
      | Z0 => Raise ZeroDivisionError
      | Zpos d | Zneg d =>
          let f := round_quotient (xorb (x <? 0)%Z (y <? 0)%Z) x d in
          if is_infinite f then Raise OverflowError else Return (PyFloat f)
      end
  | _, _ =>
      let* x := to_float a in
      let* y := to_float b in
      if is_zero y then Raise ZeroDivisionError
      else Return (PyFloat (SFdiv prec emax x y))
  end.

(** Value of a string of ASCII decimal digits, most significant first. *)
Fixpoint digits_value (acc : Z) (s : string) : Z :=
  match s with
  | EmptyString => acc
  | String c s' =>
      digits_value (10 * acc + (Z.of_N (PyStr.code c) - 48)) s'
  end.

(** [int(s)].  Exact on the strings the scanner builds (characters for
    which [isdigit] holds, and points): such a string converts iff it is
    a non-empty run of ASCII decimal digits.  The other forms [int]
    accepts (sign, blanks, underscores, digits above U+00FF) cannot reach
    it from [get_number]; they are given [ValueError] here.  The limit
    that CPython 3.11 and later put on the number of digits (4300 by
    default, [ValueError] beyond) is not modelled. *)
Definition int_of_str (s : string) : outcome Z :=
  match s with
  | EmptyString => Raise ValueError
  | _ => if PyStr.all PyStr.isdecimal s then Return (digits_value 0 s)
         else Raise ValueError
  end.

(** Splits at the first point: the part before it and, when there is a
    point, the part after it. *)
Fixpoint split_point (s : string) : string * option string :=
  match s with
  | EmptyString => (EmptyString, None)
  | String c s' =>
      if Ascii.eqb c "." then (EmptyString, Some s')
      else let '(a, b) := split_point s' in (String c a, b)
  end.

(** [float(s)], on the same strings as [int_of_str]: digits, at most one
    point, at least one digit; the value is the correctly rounded
    decimal, an infinity when it is too large (no exception). *)
Definition float_of_str (s : string) : outcome spec_float :=
  let '(a, ob) := split_point s in
  let b := match ob with Some b => b | None => EmptyString end in
  if PyStr.all PyStr.isdecimal a && PyStr.all PyStr.isdecimal b
     && negb (Nat.eqb (String.length a + String.length b) 0)
  then
    Return (round_quotient false (digits_value 0 (a +:+ b))
              (Nat.iter (String.length b) (Pos.mul 10) 1%positive))
  else Raise ValueError.

End PyNum.

(** ** [class CustomCalc] *)

Import PyNum.

(** [self.operators_priors] (lines 49-58); the value of [')'] is [None]. *)
Definition operators_priors : gmap string (option Z) :=
  <["(" := Some 1%Z]> (<[")" := None]> (<["+" := Some 2%Z]> (<["-" := Some 2%Z]>
  (<["*" := Some 3%Z]> (<["/" := Some 3%Z]> (<[":" := Some 3%Z]>
  (<["~" := Some 4%Z]> ∅))))))).

(** The [for] loop of [get_number] over [math_str[start:]]. *)
Fixpoint get_number_loop (rest num_str : string) (dots : nat) : string :=
  match rest with
  | EmptyString => num_str
  | String s rest' =>
      if PyStr.isdigit s then
        get_number_loop rest' (num_str +:+ PyStr.chr s) dots
      else if Ascii.eqb s "." && (dots <? 2)%nat then
        get_number_loop rest' (num_str +:+ PyStr.chr s) (dots + 1)
      else num_str
  end.

Definition get_number (math_str : string) (start : nat) : string :=
  get_number_loop (PyStr.slice_from start math_str) "" 0.

Definition cast_number (number : string) : outcome PyNum.number :=
  if PyStr.contains "." number then
    let* f := float_of_str number in Return (PyFloat f)
  else
    let* z := int_of_str number in Return (PyInt z).

(** The [while] loop of [split_to_tokens]; [fuel] bounds its iterations. *)
Fixpoint split_loop (fuel : nat) (math_str : string) (cur_pos : nat)
    (token_list : list string) (operators : nat) : outcome (list string) :=
  if (cur_pos <? String.length math_str)%nat then
    match fuel with
    | O => OutOfFuel
    | S fuel' =>
        let* c := PyStr.index math_str cur_pos in
        if PyStr.isdigit c then
          let num := get_number math_str cur_pos in
          split_loop fuel' math_str (cur_pos + String.length num)
            (token_list ++ [num]) operators
        else
          match operators_priors !! PyStr.chr c with
          | Some _ =>
              let* unary :=
                if Ascii.eqb c "-" then
                  if (cur_pos =? 0)%nat then Return true
                  else if (0 <? cur_pos)%nat then
                    let* p := PyStr.index math_str (cur_pos - 1) in
                    Return (Ascii.eqb p "(")
                  else Return false
                else Return false in
              if unary then
                split_loop fuel' math_str (cur_pos + 1)
                  (token_list ++ ["~"]) operators
              else
                split_loop fuel' math_str (cur_pos + 1)
                  (token_list ++ [PyStr.chr c])
                  (if negb (Ascii.eqb c "(" || Ascii.eqb c ")")
                   then operators + 1 else operators)
          | None => Raise (UnexpectedInput c)
          end
    end
  else if (operators =? 0)%nat then Raise NothingToDoError
  else Return token_list.

Definition split_to_tokens (math_str : string) : outcome (list string) :=
  let math_str := PyStr.remove_char " " math_str in
  split_loop (String.length math_str) math_str 0 [] 0.

(** [token_list[i]] *)
Definition item (token_list : list string) (i : nat) : outcome string :=
  match token_list !! i with
  | Some t => Return t
  | None => Raise IndexError
  end.

(** [int(b)] for a [bool]. *)
Definition int (b : bool) : nat := if b then 1 else 0.

(** The [for] loop of [check_parentheses] over [token_list[2:]], with the
    final comparison. *)
Fixpoint check_loop (tokens : list string)
    (opened_parentheses closed_parentheses : nat) : outcome unit :=
  match tokens with
  | [] =>
      if negb (opened_parentheses =? closed_parentheses)%nat
      then Raise ParenthesesError else Return tt
  | token :: rest =>
      if (opened_parentheses <? closed_parentheses)%nat
      then Raise ParenthesesError
      else check_loop rest
             (opened_parentheses + int (String.eqb token "("))
             (closed_parentheses + int (String.eqb token ")"))
  end.

Definition check_parentheses (token_list : list string) : outcome unit :=
  let* t0 := item token_list 0 in
  let opened_parentheses := int (String.eqb t0 "(") in
  let closed_parentheses := int (String.eqb t0 ")") in
  let* t1 := item token_list 1 in
  let opened_parentheses := opened_parentheses + int (String.eqb t1 "(") in
  let closed_parentheses := closed_parentheses + int (String.eqb t1 ")") in
  check_loop (drop 2 token_list) opened_parentheses closed_parentheses.

(** [self.operators_priors[k]] *)
Definition prior (k : string) : outcome (option Z) :=
  match operators_priors !! k with
  | Some p => Return p
  | None => Raise KeyError
  end.

(** [p >= q] on table values: [None] does not compare. *)
Definition prior_ge (p q : option Z) : outcome bool :=
  match p, q with
  | Some x, Some y => Return (y <=? x)%Z
  | _, _ => Raise TypeError
  end.

(** Lines 145-148: [top = stack.pop()], then pop until [top] is ['(']. *)
Fixpoint pop_to_paren (stack output_list : list string)
    : outcome (list string * list string) :=
  match stack with
  | [] => Raise IndexError
  | top :: stack' =>
      if String.eqb top "(" then Return (stack', output_list)
      else pop_to_paren stack' (output_list ++ [top])
  end.

(** Lines 150-152: pop while the top of the stack has priority at least
    that of [token]. *)
Fixpoint pop_higher (token : string) (stack output_list : list string)
    : outcome (list string * list string) :=
  match stack with
  | [] => Return ([], output_list)
  | top :: stack' =>
      let* p := prior top in
      let* q := prior token in
      let* ge := prior_ge p q in
      if ge then pop_higher token stack' (output_list ++ [top])
      else Return (stack, output_list)
  end.

(** The [for] loop of [infix_to_postfix], with the final emptying of the
    stack (lines 155-156), which appends it top first. *)
Fixpoint infix_loop (tokens stack output_list : list string)
    : outcome (list string) :=
  match tokens with
  | [] => Return (output_list ++ stack)
  | token :: rest =>
      let* c := PyStr.index token 0 in
      if PyStr.isdigit c then infix_loop rest stack (output_list ++ [token])
      else if String.eqb token "(" then infix_loop rest (token :: stack) output_list
      else if String.eqb token ")" then
        let* so := pop_to_paren stack output_list in
        infix_loop rest (fst so) (snd so)
      else
        let* so := pop_higher token stack output_list in
        infix_loop rest (token :: fst so) (snd so)
  end.

Definition infix_to_postfix (tokens : list string) : outcome (list string) :=
  infix_loop tokens [] [].

Definition is_ZeroDivisionError (e : exn) : bool :=
  match e with
  | ZeroDivisionError => true
  | _ => false
  end.

(** [sys.exit(msg)] raises [SystemExit]. *)
Definition sys_exit {A : Type} : outcome A := Raise SystemExit.

Definition math_operation (arg1 arg2 : number) (operator : string)
    : outcome number :=
  if String.eqb operator "+" then add arg1 arg2
  else if String.eqb operator "-" || String.eqb operator "~" then sub arg1 arg2
  else if String.eqb operator ":" || String.eqb operator "/" then
    try_except (truediv arg1 arg2) is_ZeroDivisionError sys_exit
  else mul arg1 arg2.

(** The [for] loop of [postfix_calc], with the final [stack.pop()]. *)
Fixpoint postfix_loop (postfix_list : list string) (stack : list number)
    : outcome number :=
  match postfix_list with
  | [] =>
      match stack with
      | res :: _ => Return res
      | [] => Raise IndexError
      end
  | token :: rest =>
      let* c := PyStr.index token 0 in
      if PyStr.isdigit c then
        let* v := cast_number token in
        postfix_loop rest (v :: stack)
      else if String.eqb token "~" then
        match stack with
        | arg2 :: stack' =>
            let* res := math_operation (PyInt 0) arg2 token in
            postfix_loop rest (res :: stack')
        | [] => Raise IndexError
        end
      else
        match stack with
        | arg2 :: arg1 :: stack' =>
            let* res := math_operation arg1 arg2 token in
            postfix_loop rest (res :: stack')
        | _ => Raise IndexError
        end
  end.

Definition postfix_calc (postfix_list : list string) : outcome number :=
  postfix_loop postfix_list [].

(** [eval_math_expr] prints ['=', res]; the embedding returns the printed
    value. *)
Definition eval_math_expr (math_expr : string) : outcome number :=
  let* tokens := split_to_tokens math_expr in
  let* _ := check_parentheses tokens in
  let* postfix_expr := infix_to_postfix tokens in
  postfix_calc postfix_expr.

(** ** The command loop (lines 209-226) *)

(** What one command prints. *)
Inductive printed : Type :=
  | Result (res : number)
  | ErrorOccurred (ex : exn)
  | UnexpectedErrorOccurred.

(** How the loop ends: the user quits, or an exception that no handler of
    the loop catches ends the process. *)
Inductive ending : Type :=
  | Quit
  | Uncaught (e : exn)
  | Hangs.

(** The loop over the lines [input] returns; at the end of the input
    [input] raises [EOFError].  [KeyboardInterrupt] is not modelled. *)
Fixpoint main_loop (lines : list string) : list printed * ending :=
  match lines with
  | [] => ([], Uncaught EOFError)
  | s :: rest =>
      if negb (String.eqb s "q") then
        match eval_math_expr s with
        | Return res =>
            let '(out, e) := main_loop rest in (Result res :: out, e)
        | Raise ex =>
            if is_CalculatorError ex then
              let '(out, e) := main_loop rest in (ErrorOccurred ex :: out, e)
            else if is_Exception ex then
              let '(out, e) := main_loop rest in (UnexpectedErrorOccurred :: out, e)
            else ([], Uncaught ex)
        | OutOfFuel => ([], Hangs)
        end
      else ([], Quit)
  end.

(** * What the properties are stated with *)

Import PyStr.

(** ** The scanner as a relation *)

(** The [-] at [cur_pos] is a unary minus when nothing or ['('] precedes. *)
Definition unary_position (prev : option ascii) : bool :=
  match prev with
  | None => true
  | Some p => Ascii.eqb p "("
  end.

(** One run of the loop of [split_to_tokens], told by the character before
    [cur_pos] and the text from [cur_pos] on. *)
Inductive Scans
    : option ascii -> string -> list string -> nat -> outcome (list string) -> Prop :=
  | Scans_end prev token_list operators :
      Scans prev "" token_list operators
        (if (operators =? 0)%nat then Raise NothingToDoError
         else Return token_list)
  | Scans_number prev c rest token_list operators num r :
      isdigit c = true ->
      num = get_number_loop (String c rest) "" 0 ->
      Scans (last_char num) (slice_from (String.length num) (String c rest))
        (token_list ++ [num]) operators r ->
      Scans prev (String c rest) token_list operators r
  | Scans_unary prev rest token_list operators r :
      unary_position prev = true ->
      Scans (Some "-"%char) rest (token_list ++ ["~"]) operators r ->
      Scans prev (String "-" rest) token_list operators r
  | Scans_operator prev c rest token_list operators r :
      isdigit c = false ->
      is_Some (operators_priors !! chr c) ->
      Ascii.eqb c "-" && unary_position prev = false ->
      Scans (Some c) rest (token_list ++ [chr c])
        (if negb (Ascii.eqb c "(" || Ascii.eqb c ")")
         then operators + 1 else operators) r ->
      Scans prev (String c rest) token_list operators r
  | Scans_unexpected prev c rest token_list operators :
      isdigit c = false ->
      operators_priors !! chr c = None ->
      Scans prev (String c rest) token_list operators (Raise (UnexpectedInput c)).

(** ** Where a number ends *)

(** Where [get_number] stops whatever the number of points seen: at the
    end of the text or before a character that is no digit, and, after two
    points, before anything that is no digit. *)
Definition stops_number (rest : string) : Prop :=
  match rest with
  | EmptyString => True
  | String x _ => isdigit x = false
  end.

(** A character that is no digit and no point ends a number. *)
Definition ends_number (c : ascii) : Prop :=
  isdigit c = false /\ Ascii.eqb c "." = false.

(** ** The exceptions of a stage *)

(** [m] returns or raises an exception of [P]; it does not run out of
    fuel. *)
Definition raises_in {A : Type} (P : exn -> Prop) (m : outcome A) : Prop :=
  match m with
  | Return _ => True
  | Raise e => P e
  | OutOfFuel => False
  end.

(** What [split_to_tokens], [check_parentheses], [infix_to_postfix] and
    [postfix_calc] can raise. *)
Definition tokenizer_error (e : exn) : Prop :=
  e = NothingToDoError \/ exists c, e = UnexpectedInput c.

Definition validator_error (e : exn) : Prop :=
  e = IndexError \/ e = ParenthesesError.

Definition converter_error (e : exn) : Prop :=
  e = IndexError \/ e = KeyError \/ e = TypeError.

Definition evaluator_error (e : exn) : Prop :=
  e = IndexError \/ e = ValueError \/ e = OverflowError \/ e = SystemExit.

(** ** Tokens and their text *)

(** The characters a successful scan can meet. *)
Definition scannable (c : ascii) : bool :=
  isdigit c || Ascii.eqb c "." || bool_decide (is_Some (operators_priors !! chr c)).

(** The summed lengths of tokens: each token is as long as its text. *)
Definition text_length (token_list : list string) : nat :=
  foldr (fun t n => String.length t + n) 0 token_list.

(** The character before the position that follows [p], when [prev]
    stands before [p]. *)
Definition before (prev : option ascii) (p : string) : option ascii :=
  match last_char p with
  | Some c => Some c
  | None => prev
  end.

(** The token of a [-]: ["~"] in unary position, ["-"] elsewhere. *)
Definition minus_token (prev : option ascii) : string :=
  if unary_position prev then "~" else "-".

(** ** Infix expressions and their standard value *)

(** The binary operators; [Colon] is the second sign of division. *)
Inductive binop : Type := Add | Sub | Mul | Div | Colon.

(** The token of a binary operator. *)
Definition symbol (op : binop) : string :=
  match op with
  | Add => "+"
  | Sub => "-"
  | Mul => "*"
  | Div => "/"
  | Colon => ":"
  end.

(** The precedence of a binary operator: [*], [/] and [:] above [+], [-]. *)
Definition rank (op : binop) : Z :=
  match op with
  | Add | Sub => 2
  | Mul | Div | Colon => 3
  end.

(** The syntax tree of an infix expression. *)
Inductive expr : Type :=
  | Num (lit : string)
  | Neg (e : expr)
  | Bin (op : binop) (l r : expr)
  | Paren (e : expr).

(** The tokens of an expression, in infix order. *)
Fixpoint tokens (e : expr) : list string :=
  match e with
  | Num lit => [lit]
  | Neg e => "~" :: tokens e
  | Bin op l r => tokens l ++ symbol op :: tokens r
  | Paren e => "(" :: tokens e ++ [")"]
  end.

(** The same tokens in postfix order. *)
Fixpoint postfix (e : expr) : list string :=
  match e with
  | Num lit => [lit]
  | Neg e => postfix e ++ ["~"]
  | Bin op l r => postfix l ++ postfix r ++ [symbol op]
  | Paren e => postfix e
  end.

(** The standard value: operands first, left then right, then the
    operator, with the numeric operations of the program. *)
Fixpoint eval (e : expr) : outcome number :=
  match e with
  | Num lit => cast_number lit
  | Neg e => let* v := eval e in math_operation (PyInt 0) v "~"
  | Bin op l r =>
      let* a := eval l in
      let* b := eval r in
      math_operation a b (symbol op)
  | Paren e => eval e
  end.

(** How tightly the top of an expression binds: 2 for a sum, 3 for a
    product, 4 for a negation, 5 for a literal or a parenthesis. *)
Definition level (e : expr) : Z :=
  match e with
  | Num _ | Paren _ => 5
  | Neg _ => 4
  | Bin op _ _ => rank op
  end.

(** A token that [infix_to_postfix] and [postfix_calc] take for a number. *)
Definition number_token (lit : string) : Prop :=
  match lit with
  | String c _ => isdigit c = true
  | EmptyString => False
  end.

(** The trees that the token sequence denotes without further
    parentheses: binary operators group to the left, [*] [/] [:] bind
    tighter than [+] [-], and a unary minus applies to one primary (a
    literal or a parenthesis). *)
Fixpoint wf (e : expr) : Prop :=
  match e with
  | Num lit => number_token lit
  | Neg e => wf e /\ level e = 5%Z
  | Bin op l r => wf l /\ wf r /\ (rank op <= level l)%Z /\ (rank op < level r)%Z
  | Paren e => wf e
  end.

(** ** The state of the conversion to postfix *)

(** The operators of [e] still on the stack when its last token is read,
    top first, and what has been put out by then. *)
Fixpoint pending (e : expr) : list string :=
  match e with
  | Num _ | Paren _ => []
  | Neg e => pending e ++ ["~"]
  | Bin op l r => pending r ++ [symbol op]
  end.

Fixpoint emitted (e : expr) : list string :=
  match e with
  | Num lit => [lit]
  | Neg e => emitted e
  | Bin op l r => postfix l ++ emitted r
  | Paren e => postfix e
  end.

(** The top of the stack, if any, has a priority below [n]. *)
Definition stack_ok (n : Z) (stack : list string) : Prop :=
  match stack with
  | [] => True
  | top :: _ => exists p, prior top = Return (Some p) /\ (p < n)%Z
  end.

(** The tokens of [sp] are operators of priority at least [n]. *)
Definition pending_ok (n : Z) (sp : list string) : Prop :=
  Forall (fun t => String.eqb t "(" = false
                   /\ exists p, prior t = Return (Some p) /\ (n <= p)%Z) sp.

(** The number of ["("] on the operator stack. *)
Fixpoint open_on (stack : list string) : nat :=
  match stack with
  | [] => 0
  | t :: stack' => int (String.eqb t "(") + open_on stack'
  end.

(** ** The text of an expression *)

(** The text of an expression; a unary minus is written [-]. *)
Fixpoint render (e : expr) : string :=
  match e with
  | Num lit => lit
  | Neg e => "-" +:+ render e
  | Bin op l r => render l +:+ symbol op +:+ render r
  | Paren e => "(" +:+ render e +:+ ")"
  end.

(** A literal as [get_number] takes it: digits and points, a digit
    first, two points at most. *)
Definition literal (lit : string) : Prop :=
  number_token lit
  /\ all (fun c => isdigit c || Ascii.eqb c ".") lit = true
  /\ count "." lit <= 2.

(** [written unary e]: the literals of [e] are literals of the scanner,
    and a unary minus stands only where the scanner reads one: at the start
    of the text ([unary] tells whether [e] starts there) or right after a
    ["("]. *)
Fixpoint written (unary : bool) (e : expr) : Prop :=
  match e with
  | Num lit => literal lit
  | Neg e => unary = true /\ written false e
  | Bin op l r => written unary l /\ written false r
  | Paren e => written true e
  end.

(** The number of binary operators. *)
Fixpoint binops (e : expr) : nat :=
  match e with
  | Num _ => 0
  | Neg e | Paren e => binops e
  | Bin _ l r => binops l + 1 + binops r
  end.

(** What may follow a literal: nothing, or a character that ends a number. *)
Definition ends_text (rest : string) : Prop :=
  match rest with
  | EmptyString => True
  | String c _ => ends_number c
  end.

(** The character of [symbol op]. *)
Definition symbol_char (op : binop) : ascii :=
  match op with
  | Add => "+"
  | Sub => "-"
  | Mul => "*"
  | Div => "/"
  | Colon => ":"
  end%char.

(** ** Numbers and division by zero *)

(** 5.0 and 2.5 as binary64 values. *)
Definition float_5 : spec_float := S754_finite false 5629499534213120 (-50).
Definition float_2_5 : spec_float := S754_finite false 5629499534213120 (-51).

(** [v == 0]: the integer 0 or a float zero of either sign. *)
Definition is_zero_number (v : number) : bool :=
  match v with
  | PyInt z => (z =? 0)%Z
  | PyFloat f => is_zero f
  end.

(** [float(v)] raises [OverflowError]: an integer beyond the floats. *)
Definition too_large (v : number) : bool :=
  match v with
  | PyInt z => is_infinite (binary_normalize prec emax z 0 false)
  | PyFloat _ => false
  end.

(** The evaluation of [e] comes to a division whose divisor is zero and,
    when that zero is a float, whose dividend converts to a float: the
    operands evaluated before it all return. *)
Inductive Divides_by_zero : expr -> Prop :=
  | Dz_here op l r a b :
      op = Div \/ op = Colon ->
      eval l = Return a -> eval r = Return b ->
      is_zero_number b = true ->
      is_float b && too_large a = false ->
      Divides_by_zero (Bin op l r)
  | Dz_left op l r : Divides_by_zero l -> Divides_by_zero (Bin op l r)
  | Dz_right op l r a :
      eval l = Return a -> Divides_by_zero r -> Divides_by_zero (Bin op l r)
  | Dz_neg e : Divides_by_zero e -> Divides_by_zero (Neg e)
  | Dz_paren e : Divides_by_zero e -> Divides_by_zero (Paren e).

(** The decimal digits of [10 ^ n] after the first. *)
Fixpoint zeros (n : nat) : string :=
  match n with
  | O => EmptyString
  | S n' => String "0" (zeros n')
  end.

(** ** Further vocabulary: tokens, texts and sessions *)

(** A character of a number token: a digit or a point. *)
Definition number_char (c : ascii) : bool := isdigit c || Ascii.eqb c ".".


(** A token of one character: an operator or a parenthesis of
    [operators_priors]. *)
Definition operator_token (t : string) : Prop :=
  exists c, t = chr c /\ isdigit c = false /\ is_Some (operators_priors !! chr c).

(** The tokens written one after the other. *)
Definition join (token_list : list string) : string :=
  foldr String.append "" token_list.

(** The text with every ["~"] read as ["-"]. *)
Fixpoint tilde_to_minus (s : string) : string :=
  match s with
  | EmptyString => EmptyString
  | String c s' =>
      String (if Ascii.eqb c "~" then "-"%char else c) (tilde_to_minus s')
  end.

(** [counted prev c]: the scan counts the character [c], met after [prev],
    as an arithmetic operator: a key of [operators_priors] that is no
    parenthesis and no [-] in unary position. *)
Definition counted (prev : option ascii) (c : ascii) : bool :=
  bool_decide (is_Some (operators_priors !! chr c))
  && negb (Ascii.eqb c "(" || Ascii.eqb c ")")
  && negb (Ascii.eqb c "-" && unary_position prev).

(** The number of tokens equal to [x]. *)
Fixpoint count_token (x : string) (token_list : list string) : nat :=
  match token_list with
  | [] => 0
  | t :: rest => int (String.eqb t x) + count_token x rest
  end.

(** [token[0].isdigit()], when there is a first character. *)
Definition is_number (token : string) : bool :=
  match token with
  | String c _ => isdigit c
  | EmptyString => false
  end.




(** The text of an expression with every unary minus written ["~"]. *)
Fixpoint render_tilde (e : expr) : string :=
  match e with
  | Num lit => lit
  | Neg e => "~" +:+ render_tilde e
  | Bin op l r => render_tilde l +:+ symbol op +:+ render_tilde r
  | Paren e => "(" +:+ render_tilde e +:+ ")"
  end.

(** Every literal of the expression is a literal of the scanner. *)
Fixpoint literals_scanned (e : expr) : Prop :=
  match e with
  | Num lit => literal lit
  | Neg e | Paren e => literals_scanned e
  | Bin _ l r => literals_scanned l /\ literals_scanned r
  end.

(** The number of unary minus signs. *)
Fixpoint negations (e : expr) : nat :=
  match e with
  | Num _ => 0
  | Neg e => 1 + negations e
  | Paren e => negations e
  | Bin _ l r => negations l + negations r
  end.

(** The text with every [":"] written ["/"]. *)
Fixpoint colon_to_slash (s : string) : string :=
  match s with
  | EmptyString => EmptyString
  | String c s' =>
      String (if Ascii.eqb c ":" then "/"%char else c) (colon_to_slash s')
  end.

(** A token with [":"] written ["/"]. *)
Definition slash_token (t : string) : string :=
  if String.eqb t ":" then "/" else t.

(** Two neighbouring tokens that are both numbers. *)
Fixpoint adjacent_numbers (token_list : list string) : bool :=
  match token_list with
  | [] => false
  | a :: rest =>
      match rest with
      | b :: _ => is_number a && is_number b
      | [] => false
      end || adjacent_numbers rest
  end.

(** A token that [postfix_calc] can work on: a literal of the scanner, the
    sign of a binary operator, or ["~"]. *)
Definition postfix_token (t : string) : Prop :=
  literal t \/ (exists op, t = symbol op) \/ t = "~".

(** The height of the stack of [postfix_calc] after [postfix_list], from
    the height [d]: a number adds a value, ["~"] needs one value and
    leaves one, every other token takes two and leaves one; [None] when a
    token finds too few. *)
Fixpoint stack_height (postfix_list : list string) (d : nat) : option nat :=
  match postfix_list with
  | [] => Some d
  | t :: rest =>
      if is_number t then stack_height rest (S d)
      else if String.eqb t "~" then
        match d with
        | S _ => stack_height rest d
        | O => None
        end
      else
        match d with
        | S (S d') => stack_height rest (S d')
        | _ => None
        end
  end.

(** * Properties *)

(** ** Strings *)

Module StrFacts.
Import PyStr.

Lemma append_nil_r (s : string) : s +:+ "" = s.
Proof. induction s as [|c s IH]; simpl; [reflexivity | now rewrite IH]. Qed.

Lemma append_assoc (a b c : string) : (a +:+ b) +:+ c = a +:+ (b +:+ c).
Proof. induction a as [|x a IH]; simpl; [reflexivity | now rewrite IH]. Qed.

Lemma length_append (a b : string) :
  String.length (a +:+ b) = String.length a + String.length b.
Proof. induction a as [|x a IH]; simpl; [reflexivity | now rewrite IH]. Qed.

Lemma get_app_length (pre : string) (c : ascii) (rest : string) :
  String.get (String.length pre) (pre +:+ String c rest) = Some c.
Proof. induction pre as [|x pre IH]; simpl; [reflexivity | exact IH]. Qed.

Lemma slice_from_app (pre rest : string) :
  slice_from (String.length pre) (pre +:+ rest) = rest.
Proof. induction pre as [|x pre IH]; simpl; [now destruct rest | exact IH]. Qed.

Lemma last_char_app (a b : string) :
  b <> "" -> last_char (a +:+ b) = last_char b.
Proof.
  intros Hb. induction a as [|x a IH]; simpl; [reflexivity|].
  rewrite IH. destruct (a +:+ b) eqn:E; [|reflexivity].
  destruct a; simpl in E; [contradiction | discriminate].
Qed.

Lemma append_not_empty (a b : string) : b <> "" -> a +:+ b <> "".
Proof. destruct a; simpl; [auto | discriminate]. Qed.

Lemma last_char_None (s : string) : last_char s = None <-> s = "".
Proof.
  split; [|now intros ->].
  induction s as [|c s IH]; [reflexivity|]. simpl.
  destruct s; [discriminate|]. intros H. specialize (IH H). discriminate.
Qed.

Lemma get_pred_length (pre rest : string) :
  pre <> "" ->
  String.get (String.length pre - 1) (pre +:+ rest) = last_char pre.
Proof.
  induction pre as [|x pre IH]; [contradiction|]. intros _.
  destruct pre as [|y pre]; [reflexivity|].
  assert (H : String y pre <> "") by discriminate.
  specialize (IH H). simpl in *.
  rewrite Nat.sub_0_r in IH. exact IH.
Qed.

Lemma length_zero (s : string) : String.length s = 0 <-> s = "".
Proof. destruct s; simpl; split; (reflexivity || discriminate). Qed.

Lemma contains_count (c : ascii) (s : string) :
  contains c s = true <-> 1 <= count c s.
Proof.
  induction s as [|d s IH]; simpl; [split; [discriminate | lia]|].
  destruct (Ascii.eqb d c); simpl; [split; [lia | reflexivity]|exact IH].
Qed.

Lemma count_app (c : ascii) (a b : string) :
  count c (a +:+ b) = count c a + count c b.
Proof. induction a as [|x a IH]; simpl; [reflexivity | rewrite IH; lia]. Qed.

Lemma all_app (p : ascii -> bool) (a b : string) :
  all p (a +:+ b) = all p a && all p b.
Proof.
  induction a as [|x a IH]; simpl; [reflexivity|].
  now rewrite IH, andb_assoc.
Qed.

End StrFacts.

(** ** The scanner, position by position *)

Import PyStr StrFacts.

(** [get_number_loop] only extends its accumulator. *)
Lemma get_number_loop_acc (rest acc : string) (dots : nat) :
  get_number_loop rest acc dots = acc +:+ get_number_loop rest "" dots.
Proof.
  revert acc dots. induction rest as [|s rest IH]; intros acc dots; simpl.
  - now rewrite append_nil_r.
  - destruct (isdigit s).
    + rewrite (IH (acc +:+ chr s)), (IH (chr s)). now rewrite append_assoc.
    + destruct (Ascii.eqb s "." && (dots <? 2)%nat).
      * rewrite (IH (acc +:+ chr s)), (IH (chr s)). now rewrite append_assoc.
      * now rewrite append_nil_r.
Qed.

(** The unfolding of [get_number_loop] on an empty accumulator. *)
Lemma get_number_loop_cons (s : ascii) (rest : string) (dots : nat) :
  get_number_loop (String s rest) "" dots =
    if isdigit s then String s (get_number_loop rest "" dots)
    else if Ascii.eqb s "." && (dots <? 2)%nat
         then String s (get_number_loop rest "" (dots + 1))
         else "".
Proof.
  simpl. destruct (isdigit s); [now rewrite get_number_loop_acc|].
  destruct (Ascii.eqb s "." && (dots <? 2)%nat); [|reflexivity].
  now rewrite get_number_loop_acc.
Qed.

(** What [get_number] collects is a prefix of what it reads. *)
Lemma get_number_loop_prefix (rest : string) (dots : nat) :
  rest = get_number_loop rest "" dots
         +:+ slice_from (String.length (get_number_loop rest "" dots)) rest.
Proof.
  revert dots. induction rest as [|s rest IH]; intros dots; [reflexivity|].
  rewrite get_number_loop_cons.
  destruct (isdigit s); [simpl; now rewrite <- IH|].
  destruct (Ascii.eqb s "." && (dots <? 2)%nat); [simpl; now rewrite <- IH|].
  reflexivity.
Qed.

(** The loop of [split_to_tokens] at position [length pre] of
    [pre +:+ rest] is a run of [Scans], given fuel for what is left. *)
Lemma split_loop_Scans (fuel : nat) :
  forall (pre rest : string) (token_list : list string) (operators : nat),
    String.length rest <= fuel ->
    Scans (last_char pre) rest token_list operators
      (split_loop fuel (pre +:+ rest) (String.length pre) token_list operators).
Proof.
  induction fuel as [|fuel IH]; intros pre rest tl ops Hfuel.
  - destruct rest; [|simpl in Hfuel; lia].
    simpl. rewrite append_nil_r, Nat.ltb_irrefl. constructor.
  - destruct rest as [|c rest].
    { simpl. rewrite append_nil_r, Nat.ltb_irrefl. constructor. }
    cbn [split_loop].
    assert (Hlt : (String.length pre <? String.length (pre +:+ String c rest))%nat = true).
    { apply Nat.ltb_lt. rewrite length_append. simpl. lia. }
    rewrite Hlt. unfold index. rewrite get_app_length. cbn [bind].
    destruct (isdigit c) eqn:Hd.
    + unfold get_number. rewrite slice_from_app.
      set (num := get_number_loop (String c rest) "" 0).
      assert (Hnum : num <> "").
      { unfold num. rewrite get_number_loop_cons, Hd. discriminate. }
      pose proof (get_number_loop_prefix (String c rest) 0) as Hpre.
      fold num in Hpre.
      eapply Scans_number; [exact Hd | reflexivity |]. fold num.
      rewrite <- (last_char_app pre num Hnum).
      rewrite <- length_append.
      replace (pre +:+ String c rest)
        with ((pre +:+ num) +:+ slice_from (String.length num) (String c rest))
        by (rewrite append_assoc; now rewrite <- Hpre).
      apply IH.
      assert (String.length (String c rest)
              = String.length num
                + String.length (slice_from (String.length num) (String c rest)))
        by (rewrite <- length_append; now rewrite <- Hpre).
      assert (String.length num <> 0) by (rewrite length_zero; exact Hnum).
      simpl in *. lia.
    + destruct (operators_priors !! chr c) as [p|] eqn:Hk;
        [|now apply Scans_unexpected].
      assert (Hu : (if Ascii.eqb c "-" then
                      if (String.length pre =? 0)%nat then Return true
                      else if (0 <? String.length pre)%nat then
                        let* p := match String.get (String.length pre - 1)
                                          (pre +:+ String c rest) with
                                  | Some c => Return c
                                  | None => Raise IndexError
                                  end in
                        Return (Ascii.eqb p "(")
                      else Return false
                    else Return false)
                   = Return (Ascii.eqb c "-" && unary_position (last_char pre))).
      { destruct (Ascii.eqb c "-"); [|reflexivity]. simpl.
        destruct pre as [|x pre]; [reflexivity|].
        replace (String.length (String x pre) =? 0)%nat with false by reflexivity.
        replace (0 <? String.length (String x pre))%nat with true by reflexivity.
        rewrite get_pred_length by discriminate.
        destruct (last_char (String x pre)) eqn:El; [reflexivity|].
        apply last_char_None in El. discriminate. }
      rewrite Hu. cbn [bind].
      replace (String.length pre + 1) with (String.length (pre +:+ chr c))
        by (rewrite length_append; reflexivity).
      replace (pre +:+ String c rest) with ((pre +:+ chr c) +:+ rest)
        by (rewrite append_assoc; reflexivity).
      assert (Hl : last_char (pre +:+ chr c) = Some c)
        by (rewrite last_char_app by discriminate; reflexivity).
      destruct (Ascii.eqb c "-" && unary_position (last_char pre)) eqn:Eu.
      * apply andb_true_iff in Eu as [Ec Eu].
        apply Ascii.eqb_eq in Ec. subst c.
        apply Scans_unary; [exact Eu|].
        rewrite <- Hl. apply IH. simpl in Hfuel. lia.
      * apply Scans_operator; [exact Hd | now rewrite Hk | exact Eu |].
        rewrite <- Hl. apply IH. simpl in Hfuel. lia.
Qed.

(** [split_to_tokens] is a run of [Scans] over the text without its
    spaces, from its start. *)
Lemma split_to_tokens_Scans (math_str : string) :
  Scans None (remove_char " " math_str) [] 0 (split_to_tokens math_str).
Proof.
  unfold split_to_tokens.
  exact (split_loop_Scans _ "" (remove_char " " math_str) [] 0 (le_n _)).
Qed.

(** ** Number literals: [get_number] and [cast_number] *)

Lemma isdigit_not_point (s : ascii) : isdigit s = true -> Ascii.eqb s "." = false.
Proof.
  intros Hd. destruct (Ascii.eqb s ".") eqn:E; [|reflexivity].
  apply Ascii.eqb_eq in E. subst s. discriminate.
Qed.

Lemma isdecimal_not_point (s : ascii) : isdecimal s = true -> Ascii.eqb s "." = false.
Proof.
  intros Hd. destruct (Ascii.eqb s ".") eqn:E; [|reflexivity].
  apply Ascii.eqb_eq in E. subst s. discriminate.
Qed.

(** With [dots] points already seen, at most [2 - dots] more are taken. *)
Lemma get_number_loop_points (rest : string) (dots : nat) :
  dots <= 2 -> count "." (get_number_loop rest "" dots) + dots <= 2.
Proof.
  revert dots. induction rest as [|s rest IH]; intros dots Hd; [simpl; lia|].
  rewrite get_number_loop_cons.
  destruct (isdigit s) eqn:Es.
  - simpl. rewrite (isdigit_not_point s Es). simpl. now apply IH.
  - destruct (Ascii.eqb s ".") eqn:Ep; simpl; [|lia].
    destruct (dots <? 2)%nat eqn:El; simpl; [|lia].
    apply Nat.ltb_lt in El. rewrite Ep.
    specialize (IH (dots + 1)). lia.
Qed.

(** A run of digits is taken whole. *)
Lemma get_number_loop_digits (a rest : string) (dots : nat) :
  all isdigit a = true ->
  get_number_loop (a +:+ rest) "" dots = a +:+ get_number_loop rest "" dots.
Proof.
  induction a as [|x a IH]; intros Ha; [reflexivity|].
  simpl in Ha. apply andb_true_iff in Ha as [Hx Ha].
  simpl. rewrite get_number_loop_acc. simpl.
  rewrite Hx. rewrite get_number_loop_acc. simpl. now rewrite IH.
Qed.

Lemma get_number_loop_stops (rest : string) :
  stops_number rest -> get_number_loop rest "" 2 = "".
Proof.
  destruct rest as [|x rest]; [reflexivity|]. simpl. intros ->.
  now rewrite andb_false_r.
Qed.

Lemma split_point_count (s : string) :
  1 <= count "." s ->
  exists a b, PyNum.split_point s = (a, Some b) /\ count "." s = S (count "." b).
Proof.
  induction s as [|c s IH]; simpl; [lia|].
  destruct (Ascii.eqb c ".") eqn:Ec.
  - intros _. now exists "", s.
  - simpl. intros H. destruct (IH H) as (a & b & Hs & Hc).
    rewrite Hs. now exists (String c a), b.
Qed.

Lemma all_isdecimal_no_point (s : string) :
  all isdecimal s = true -> count "." s = 0.
Proof.
  induction s as [|c s IH]; simpl; [reflexivity|].
  intros H. apply andb_true_iff in H as [Hc Hs].
  rewrite (isdecimal_not_point c Hc). now rewrite IH.
Qed.

(** A literal with two points does not convert. *)
Lemma cast_number_two_points (number : string) :
  2 <= count "." number -> cast_number number = Raise ValueError.
Proof.
  intros H. unfold cast_number.
  assert (Hc : contains "." number = true) by (apply contains_count; lia).
  rewrite Hc. unfold PyNum.float_of_str.
  destruct (split_point_count number) as (a & b & Hs & Hn); [lia|].
  rewrite Hs. destruct (all isdecimal b) eqn:Hb.
  - apply all_isdecimal_no_point in Hb. lia.
  - now rewrite andb_false_r.
Qed.

(** ** The claims on single functions *)

(** C9: the number scanner takes up to two decimal points into one
    token: whatever it reads, the token has at most two points; a literal
    [a.b.c] of three runs of digits is taken whole and the scan stops
    before a third point; and such a token fails only when it is
    converted: every string with two points makes [cast_number] raise
    [ValueError], which is no [CalculatorError].  On ["1.2.3+1"] the
    tokenizer returns the tokens ["1.2.3"], ["+"], ["1"] and the
    evaluation raises [ValueError]. *)
Theorem get_number_accepts_two_points :
  (forall math_str start, count "." (get_number math_str start) <= 2)
  /\ (forall a b c rest,
        all isdigit a = true -> all isdigit b = true -> all isdigit c = true ->
        stops_number rest ->
        get_number (a +:+ "." +:+ b +:+ "." +:+ c +:+ rest) 0
        = a +:+ "." +:+ b +:+ "." +:+ c)
  /\ get_number "1.2.3.4" 0 = "1.2.3"
  /\ (forall number, 2 <= count "." number -> cast_number number = Raise ValueError)
  /\ split_to_tokens "1.2.3+1" = Return ["1.2.3"; "+"; "1"]
  /\ eval_math_expr "1.2.3+1" = Raise ValueError
  /\ is_CalculatorError ValueError = false.
Proof.
  split; [|split; [|split; [|split; [|split; [|split]]]]].
  - intros math_str start. unfold get_number.
    pose proof (get_number_loop_points (slice_from start math_str) 0). lia.
  - intros a b c rest Ha Hb Hc Hr. unfold get_number. simpl slice_from.
    rewrite (get_number_loop_digits a) by exact Ha.
    rewrite get_number_loop_cons. simpl.
    rewrite (get_number_loop_digits b) by exact Hb.
    rewrite get_number_loop_cons. simpl.
    rewrite (get_number_loop_digits c) by exact Hc.
    rewrite (get_number_loop_stops rest Hr).
    now rewrite append_nil_r.
  - reflexivity.
  - exact cast_number_two_points.
  - reflexivity.
  - reflexivity.
  - reflexivity.
Qed.

Lemma get_number_accepts_two_points_witness :
  all isdigit "10" = true /\ stops_number "+7"
  /\ get_number "10.25.3+7" 0 = "10.25.3"
  /\ 2 <= count "." "10.25.3"
  /\ cast_number "10.25.3" = Raise ValueError.
Proof.
  destruct get_number_accepts_two_points as (_ & Hlit & _ & Hcast & _).
  split; [reflexivity|]. split; [reflexivity|].
  split; [exact (Hlit "10" "25" "3" "+7" eq_refl eq_refl eq_refl eq_refl)|].
  split; [simpl; lia|].
  apply Hcast. simpl. lia.
Defined.

(** C10: [check_parentheses] reads [token_list[0]] and [token_list[1]]
    before anything else, so on every list of fewer than two tokens it
    raises [IndexError].  The tokenizer accepts ["+"] with the single token
    ["+"]; [eval_math_expr "+"] therefore raises [IndexError], which is
    neither a [CalculatorError] nor the [SystemExit] of a division by
    zero: the command loop reports an unexpected error and goes on. *)
Theorem check_parentheses_short_list :
  (forall token_list : list string,
      length token_list < 2 -> check_parentheses token_list = Raise IndexError)
  /\ split_to_tokens "+" = Return ["+"]
  /\ eval_math_expr "+" = Raise IndexError
  /\ is_CalculatorError IndexError = false
  /\ IndexError <> SystemExit
  /\ main_loop ["+"; "q"] = ([UnexpectedErrorOccurred], Quit).
Proof.
  split; [|repeat split; (reflexivity || discriminate)].
  intros [|t0 [|t1 rest]] H; simpl in H; [reflexivity | reflexivity | lia].
Qed.

Lemma check_parentheses_short_list_witness :
  length ["+"] < 2 /\ check_parentheses ["+"] = Raise IndexError.
Proof.
  split; [simpl; lia|].
  apply (proj1 check_parentheses_short_list). simpl. lia.
Defined.

(** C2, at the failing input [")(1+2"]: the tokenizer returns five tokens,
    [check_parentheses] accepts them (its first test comes after the
    second token is counted, when the counts are 1 and 1), and
    [infix_to_postfix] pops the empty stack on the first token [")"]. *)
Theorem check_parentheses_misses_leading_close :
  split_to_tokens ")(1+2" = Return [")"; "("; "1"; "+"; "2"]
  /\ check_parentheses [")"; "("; "1"; "+"; "2"] = Return tt
  /\ pop_to_paren [] [] = Raise IndexError
  /\ infix_to_postfix [")"; "("; "1"; "+"; "2"] = Raise IndexError
  /\ eval_math_expr ")(1+2" = Raise IndexError.
Proof. repeat split; reflexivity. Qed.

(** C5, at the failing input ["-5"]: the scan finds the unary minus (the
    token ["~"], an operator of [operators_priors]) and raises
    [NothingToDoError] all the same, because the branch that appends
    ["~"] does not count it. *)
Theorem split_to_tokens_ignores_unary_minus :
  split_loop 2 "-5" 0 [] 0 = split_loop 0 "-5" 2 ["~"; "5"] 0
  /\ is_Some (operators_priors !! "~")
  /\ split_to_tokens "-5" = Raise NothingToDoError
  /\ eval_math_expr "-5" = Raise NothingToDoError.
Proof. repeat split; try reflexivity. now exists (Some 4%Z). Qed.

(** ** The scanner as a whole *)

(** A run has one result. *)
Lemma Scans_deterministic prev rest token_list operators r1 r2 :
  Scans prev rest token_list operators r1 ->
  Scans prev rest token_list operators r2 ->
  r1 = r2.
Proof.
  intros H1. revert r2.
  induction H1 as [prev tl ops
                  |prev c rest tl ops num r Hd Hnum H1 IH
                  |prev rest tl ops r Hu H1 IH
                  |prev c rest tl ops r Hd Hk Hu H1 IH
                  |prev c rest tl ops Hd Hk];
    intros r2 H2; inversion H2; subst;
    try reflexivity;
    try (apply IH; assumption);
    try (simpl in *; congruence);
    try discriminate;
    try match goal with
        | Hs : is_Some ?x, Hn : ?x = None |- _ =>
            rewrite Hn in Hs; destruct Hs; discriminate
        end.
Qed.

(** The result of the tokenizer is the result of any run from the start. *)
Lemma split_to_tokens_run (math_str : string) (r : outcome (list string)) :
  Scans None (remove_char " " math_str) [] 0 r -> split_to_tokens math_str = r.
Proof.
  intros H. exact (Scans_deterministic _ _ _ _ _ _ (split_to_tokens_Scans math_str) H).
Qed.

(** The loop always ends, and never with [EmptyInputError]: the tokenizer
    raises [UnexpectedInput] or [NothingToDoError] only. *)
Lemma Scans_result prev rest token_list operators r :
  Scans prev rest token_list operators r ->
  (exists ts, r = Return ts) \/ r = Raise NothingToDoError
  \/ (exists c, r = Raise (UnexpectedInput c)).
Proof.
  induction 1; try assumption.
  - destruct (operators =? 0)%nat; eauto.
  - eauto.
Qed.

Lemma remove_char_app (old : ascii) (a b : string) :
  remove_char old (a +:+ b) = remove_char old a +:+ remove_char old b.
Proof.
  induction a as [|x a IH]; simpl; [reflexivity|].
  destruct (Ascii.eqb x old); simpl; now rewrite IH.
Qed.

Lemma remove_char_absent (old : ascii) (s : string) :
  contains old (remove_char old s) = false.
Proof.
  induction s as [|x s IH]; simpl; [reflexivity|].
  destruct (Ascii.eqb x old) eqn:E; [exact IH|]. simpl. now rewrite E.
Qed.




Lemma get_number_loop_before (p : string) (c : ascii) (q : string) (dots : nat) :
  ends_number c ->
  get_number_loop (p +:+ String c q) "" dots = get_number_loop p "" dots.
Proof.
  intros [Hd Hp]. revert dots.
  induction p as [|x p IH]; intros dots.
  - simpl. now rewrite Hd, Hp.
  - change (String x p +:+ String c q) with (String x (p +:+ String c q)).
    rewrite !get_number_loop_cons, !IH. reflexivity.
Qed.

Lemma slice_from_app_le (n : nat) (a b : string) :
  n <= String.length a -> slice_from n (a +:+ b) = slice_from n a +:+ b.
Proof.
  revert a. induction n as [|n IH]; intros a Hn; [reflexivity|].
  destruct a as [|x a]; simpl in *; [lia|]. apply IH. lia.
Qed.

Lemma get_number_loop_length (rest : string) (dots : nat) :
  String.length (get_number_loop rest "" dots) <= String.length rest.
Proof.
  pose proof (get_number_loop_prefix rest dots) as H.
  apply (f_equal String.length) in H. rewrite length_append in H. lia.
Qed.


(** ** Which exceptions each stage can raise *)

Lemma raises_in_bind {A B : Type} (P : exn -> Prop) (m : outcome A)
    (k : A -> outcome B) :
  raises_in P m -> (forall a, raises_in P (k a)) -> raises_in P (bind m k).
Proof. destruct m; simpl; auto. Qed.

Lemma raises_in_weaken {A : Type} (P Q : exn -> Prop) (m : outcome A) :
  (forall e, P e -> Q e) -> raises_in P m -> raises_in Q m.
Proof. destruct m; simpl; auto. Qed.

Lemma split_to_tokens_raises (math_str : string) :
  raises_in tokenizer_error (split_to_tokens math_str).
Proof.
  destruct (Scans_result _ _ _ _ _ (split_to_tokens_Scans math_str))
    as [[ts ->]|[->|[c ->]]]; simpl; unfold tokenizer_error; eauto.
Qed.

Lemma check_parentheses_raises (token_list : list string) :
  raises_in validator_error (check_parentheses token_list).
Proof.
  assert (Hloop : forall tl o c, raises_in validator_error (check_loop tl o c)).
  { induction tl as [|t tl IH]; intros o c; simpl.
    - destruct (negb (o =? c)%nat); simpl; unfold validator_error; auto.
    - destruct (o <? c)%nat; simpl; [unfold validator_error; auto | apply IH]. }
  unfold check_parentheses, item.
  destruct token_list as [|t0 [|t1 rest]]; simpl;
    [unfold validator_error; auto .. | apply Hloop].
Qed.

Lemma index_raises (s : string) (i : nat) :
  raises_in (fun e => e = IndexError) (index s i).
Proof. unfold index. now destruct (String.get i s). Qed.

Lemma pop_to_paren_raises (stack output_list : list string) :
  raises_in converter_error (pop_to_paren stack output_list).
Proof.
  revert output_list. induction stack as [|top stack IH]; intros out; simpl.
  - unfold converter_error; auto.
  - destruct (String.eqb top "("); [exact I | apply IH].
Qed.

Lemma pop_higher_raises (token : string) (stack output_list : list string) :
  raises_in converter_error (pop_higher token stack output_list).
Proof.
  revert output_list. induction stack as [|top stack IH]; intros out; simpl;
    [exact I|].
  unfold prior. destruct (operators_priors !! top) as [p|];
    [|simpl; unfold converter_error; now auto].
  destruct (operators_priors !! token) as [q|];
    [|simpl; unfold converter_error; now auto].
  destruct p as [x|], q as [y|]; simpl; try (unfold converter_error; now auto).
  destruct (y <=? x)%Z; [apply IH | exact I].
Qed.

Lemma infix_to_postfix_raises (token_list : list string) :
  raises_in converter_error (infix_to_postfix token_list).
Proof.
  unfold infix_to_postfix. generalize (@nil string) at 1 as stack.
  generalize (@nil string) as out.
  induction token_list as [|token rest IH]; intros out stack; simpl; [exact I|].
  apply raises_in_bind.
  { eapply raises_in_weaken; [|apply index_raises].
    intros e ->. unfold converter_error. auto. }
  intros c. destruct (isdigit c); [apply IH|].
  destruct (String.eqb token "("); [apply IH|].
  destruct (String.eqb token ")").
  - apply raises_in_bind; [apply pop_to_paren_raises | intros so; apply IH].
  - apply raises_in_bind; [apply pop_higher_raises | intros so; apply IH].
Qed.

Lemma cast_number_raises (number : string) :
  raises_in (fun e => e = ValueError) (cast_number number).
Proof.
  unfold cast_number, PyNum.float_of_str, PyNum.int_of_str.
  destruct (contains "." number).
  - destruct (PyNum.split_point number) as [a ob].
    now destruct (_ && _).
  - destruct number; [reflexivity|]. now destruct (all isdecimal _).
Qed.

Lemma to_float_raises (v : number) :
  raises_in (fun e => e = OverflowError) (PyNum.to_float v).
Proof.
  destruct v as [z|f]; simpl; [|exact I].
  unfold PyNum.float_of_int. now destruct (PyNum.is_infinite _).
Qed.

Lemma arith_raises fi ff (a b : number) :
  raises_in (fun e => e = OverflowError) (PyNum.arith fi ff a b).
Proof.
  unfold PyNum.arith.
  destruct a as [x|x], b as [y|y]; try exact I;
    (apply raises_in_bind; [apply to_float_raises|]; intros x';
     apply raises_in_bind; [apply to_float_raises|]; intros y'; exact I).
Qed.

Lemma truediv_raises (a b : number) :
  raises_in (fun e => e = OverflowError \/ e = ZeroDivisionError) (PyNum.truediv a b).
Proof.
  assert (Hf : forall v, raises_in (fun e => e = OverflowError \/ e = ZeroDivisionError)
                           (PyNum.to_float v)).
  { intros v. eapply raises_in_weaken; [|apply to_float_raises]. now left. }
  unfold PyNum.truediv.
  destruct a as [x|x], b as [y|y];
    try (apply raises_in_bind; [apply Hf|]; intros x';
         apply raises_in_bind; [apply Hf|]; intros y';
         destruct (PyNum.is_zero y'); simpl; now auto).
  destruct y as [|d|d]; simpl; [now right| |];
    destruct (PyNum.is_infinite _); simpl; now auto.
Qed.

Lemma math_operation_raises (arg1 arg2 : number) (operator : string) :
  raises_in (fun e => e = OverflowError \/ e = SystemExit)
    (math_operation arg1 arg2 operator).
Proof.
  assert (Ha : forall fi ff, raises_in (fun e => e = OverflowError \/ e = SystemExit)
                               (PyNum.arith fi ff arg1 arg2)).
  { intros fi ff. eapply raises_in_weaken; [|apply arith_raises]. now left. }
  unfold math_operation.
  destruct (String.eqb operator "+"); [apply Ha|].
  destruct (_ || _); [apply Ha|].
  destruct (_ || _); [|apply Ha].
  pose proof (truediv_raises arg1 arg2) as H.
  destruct (PyNum.truediv arg1 arg2) as [v|e|]; simpl in *; auto.
  destruct H as [->| ->]; simpl; auto.
Qed.

Lemma postfix_calc_raises (postfix_list : list string) :
  raises_in evaluator_error (postfix_calc postfix_list).
Proof.
  unfold postfix_calc. generalize (@nil number) as stack.
  assert (Hm : forall a b op, raises_in evaluator_error (math_operation a b op)).
  { intros a b op. eapply raises_in_weaken; [|apply math_operation_raises].
    unfold evaluator_error. intros e [->| ->]; auto. }
  induction postfix_list as [|token rest IH]; intros stack; simpl.
  - destruct stack; simpl; unfold evaluator_error; auto.
  - apply raises_in_bind.
    { eapply raises_in_weaken; [|apply index_raises].
      intros e ->. unfold evaluator_error. auto. }
    intros c. destruct (isdigit c).
    + apply raises_in_bind; [|intros v; apply IH].
      eapply raises_in_weaken; [|apply cast_number_raises].
      intros e ->. unfold evaluator_error. auto.
    + destruct (String.eqb token "~").
      * destruct stack as [|arg2 stack]; [simpl; unfold evaluator_error; now auto|].
        apply raises_in_bind; [apply Hm | intros res; apply IH].
      * destruct stack as [|arg2 [|arg1 stack]];
          try (simpl; unfold evaluator_error; now auto).
        apply raises_in_bind; [apply Hm | intros res; apply IH].
Qed.

(** [eval_math_expr] always ends, and what it raises is raised by one of
    its four stages. *)
Lemma eval_math_expr_raises (math_expr : string) :
  raises_in (fun e => tokenizer_error e \/ validator_error e
                      \/ converter_error e \/ evaluator_error e)
    (eval_math_expr math_expr).
Proof.
  unfold eval_math_expr.
  apply raises_in_bind.
  { eapply raises_in_weaken; [|apply split_to_tokens_raises]. auto. }
  intros tokens. apply raises_in_bind.
  { eapply raises_in_weaken; [|apply check_parentheses_raises]. auto. }
  intros _. apply raises_in_bind.
  { eapply raises_in_weaken; [|apply infix_to_postfix_raises]. auto. }
  intros postfix_expr.
  eapply raises_in_weaken; [|apply postfix_calc_raises]. auto.
Qed.

(** ** Spaces, white space and unexpected symbols *)

Lemma remove_char_only (old : ascii) (s : string) :
  all (fun c => Ascii.eqb c old) s = true -> remove_char old s = "".
Proof.
  induction s as [|x s IH]; simpl; [reflexivity|].
  intros H. apply andb_true_iff in H as [Hx Hs]. rewrite Hx. now apply IH.
Qed.

Lemma remove_char_id (old : ascii) (s : string) :
  contains old s = false -> remove_char old s = s.
Proof.
  induction s as [|x s IH]; simpl; [reflexivity|].
  intros H. apply orb_false_iff in H as [Hx Hs]. rewrite Hx. now rewrite IH.
Qed.


(** C8, as the code has it: on the empty string and on every string of
    space characters (U+0020) only, [eval_math_expr] raises
    [NothingToDoError]; and on no input at all does it raise
    [EmptyInputError]. *)
Theorem blank_input_raises_NothingToDoError :
  (forall math_expr,
      all (fun c => Ascii.eqb c " ") math_expr = true ->
      eval_math_expr math_expr = Raise NothingToDoError)
  /\ (forall math_expr, eval_math_expr math_expr <> Raise EmptyInputError).
Proof.
  split.
  - intros s Hs. unfold eval_math_expr, split_to_tokens.
    now rewrite (remove_char_only " " s Hs).
  - intros s H. pose proof (eval_math_expr_raises s) as Hr.
    rewrite H in Hr. simpl in Hr.
    unfold tokenizer_error, validator_error, converter_error, evaluator_error in Hr.
    repeat match goal with
           | Hd : _ \/ _ |- _ => destruct Hd as [Hd|Hd]
           | Hd : exists _, _ |- _ => destruct Hd as [? Hd]
           end; discriminate.
Qed.

Lemma blank_input_raises_NothingToDoError_witness :
  all (fun c => Ascii.eqb c " ") "   " = true
  /\ eval_math_expr "   " = Raise NothingToDoError.
Proof.
  split; [reflexivity|].
  apply (proj1 blank_input_raises_NothingToDoError). reflexivity.
Defined.

(** C8 as stated fails on white space other than the space character: the
    one-character input TAB is white space only, and [eval_math_expr]
    raises [UnexpectedInput] on it, not [NothingToDoError]. *)
Lemma whitespace_only_input_counterexample :
  all isspace (chr tab) = true
  /\ eval_math_expr (chr tab) = Raise (UnexpectedInput tab)
  /\ eval_math_expr (chr tab) <> Raise NothingToDoError.
Proof. repeat split; try reflexivity. discriminate. Qed.




(** ** The two readings of [-] *)

Lemma scannable_not_space (c : ascii) : scannable c = true -> isspace c = false.
Proof.
  destruct c as [[] [] [] [] [] [] [] []]; vm_compute; congruence.
Qed.

Lemma get_number_loop_scannable (rest : string) (dots : nat) :
  all scannable (get_number_loop rest "" dots) = true.
Proof.
  revert dots. induction rest as [|x rest IH]; intros dots; [reflexivity|].
  rewrite get_number_loop_cons.
  destruct (isdigit x) eqn:Hd.
  { cbn [all]. rewrite IH. unfold scannable. now rewrite Hd. }
  destruct (Ascii.eqb x ".") eqn:Hp; simpl; [|reflexivity].
  destruct (dots <? 2)%nat; simpl; [|reflexivity].
  rewrite IH. unfold scannable. now rewrite Hd, Hp.
Qed.

(** A scan that returns tokens has met scannable characters only. *)
Lemma Scans_Return_scannable prev rest token_list operators ts :
  Scans prev rest token_list operators (Return ts) -> all scannable rest = true.
Proof.
  intros H. remember (Return ts) as r eqn:Er.
  induction H as [prev tl ops
                 |prev d rest tl ops num r Hd Hnum H1 IH
                 |prev rest tl ops r Hu H1 IH
                 |prev d rest tl ops r Hd Hk Hu H1 IH
                 |prev d rest tl ops Hd Hk]; try discriminate.
  - reflexivity.
  - rewrite (get_number_loop_prefix (String d rest) 0), <- Hnum, all_app.
    rewrite (IH Er), Hnum. now rewrite get_number_loop_scannable.
  - simpl. now rewrite (IH Er).
  - simpl. rewrite (IH Er). unfold scannable.
    rewrite (bool_decide_eq_true_2 _ Hk). now rewrite orb_true_r.
Qed.

(** On an accepted input, removing the spaces is removing all the white
    space. *)
Lemma accepted_whitespace (math_str : string) (ts : list string) :
  split_to_tokens math_str = Return ts ->
  remove_if isspace math_str = remove_char " " math_str.
Proof.
  intros H. pose proof (split_to_tokens_Scans math_str) as Hs.
  rewrite H in Hs. apply Scans_Return_scannable in Hs.
  clear H. induction math_str as [|x s IH]; [reflexivity|].
  simpl in *. destruct (Ascii.eqb x " ") eqn:Ex.
  - apply Ascii.eqb_eq in Ex. subst x. simpl. now apply IH.
  - simpl in Hs. apply andb_true_iff in Hs as [Hx Hs].
    rewrite (scannable_not_space x Hx). now rewrite IH.
Qed.

Lemma before_app (prev : option ascii) (a b : string) :
  before prev (a +:+ b) = before (before prev a) b.
Proof.
  unfold before. destruct b as [|x b].
  - now rewrite append_nil_r.
  - rewrite last_char_app by discriminate.
    destruct (last_char (String x b)) eqn:E; [reflexivity|].
    apply last_char_None in E. discriminate.
Qed.

Lemma Scans_extends prev rest token_list operators ts :
  Scans prev rest token_list operators (Return ts) ->
  exists tr, ts = token_list ++ tr.
Proof.
  intros H. remember (Return ts) as r eqn:Er.
  induction H as [prev tl ops
                 |prev d rest tl ops num r Hd Hnum H1 IH
                 |prev rest tl ops r Hu H1 IH
                 |prev d rest tl ops r Hd Hk Hu H1 IH
                 |prev d rest tl ops Hd Hk]; try discriminate.
  - destruct (ops =? 0)%nat; [discriminate|]. injection Er as ->.
    exists []. now rewrite app_nil_r.
  - destruct (IH Er) as [tr ->]. exists (num :: tr). now rewrite <- app_assoc.
  - destruct (IH Er) as [tr ->]. exists ("~" :: tr). now rewrite <- app_assoc.
  - destruct (IH Er) as [tr ->]. exists (chr d :: tr). now rewrite <- app_assoc.
Qed.

(** Every [-] of the scanned text is the text of one token, ["~"] or ["-"]
    by the character before it. *)
Lemma Scans_minus prev rest token_list operators r :
  Scans prev rest token_list operators r ->
  forall p q ts,
    rest = p +:+ String "-" q -> r = Return ts ->
    exists tp tq,
      ts = token_list ++ tp ++ minus_token (before prev p) :: tq
      /\ text_length tp = String.length p.
Proof.
  induction 1 as [prev tl ops
                 |prev d rest tl ops num r Hd Hnum H1 IH
                 |prev rest tl ops r Hu H1 IH
                 |prev d rest tl ops r Hd Hk Hu H1 IH
                 |prev d rest tl ops Hd Hk];
    intros p q ts Hrest Hr.
  - destruct p; discriminate.
  - destruct p as [|x p]; [injection Hrest as -> _; discriminate|].
    assert (Hend : ends_number "-") by (split; reflexivity).
    rewrite Hrest in Hnum.
    rewrite (get_number_loop_before _ "-"%char q 0 Hend) in Hnum.
    pose proof (get_number_loop_prefix (String x p) 0) as Hpre.
    rewrite <- Hnum in Hpre.
    rewrite Hrest, slice_from_app_le in H1, IH
      by (rewrite Hnum; apply get_number_loop_length).
    assert (Hn : num <> "").
    { rewrite Hnum, get_number_loop_cons.
      injection Hrest as -> _. rewrite Hd. discriminate. }
    remember (slice_from (String.length num) (String x p)) as p' eqn:Ep'.
    destruct (IH p' q ts eq_refl Hr) as (tp & tq & Hts & Hlen).
    assert (Hb : before prev (String x p) = before (last_char num) p').
    { rewrite Hpre, before_app. f_equal. unfold before.
      destruct (last_char num) eqn:El; [reflexivity|].
      apply last_char_None in El. contradiction. }
    exists (num :: tp), tq. split.
    + rewrite Hts, <- app_assoc, Hb. reflexivity.
    + change (text_length (num :: tp))
        with (String.length num + text_length tp).
      rewrite Hlen, Hpre. now rewrite length_append.
  - destruct p as [|x p].
    + injection Hrest as ->. subst r.
      destruct (Scans_extends _ _ _ _ _ H1) as [tr ->].
      exists [], tr. split; [|reflexivity].
      rewrite <- app_assoc. simpl. unfold minus_token, before. simpl.
      now rewrite Hu.
    + injection Hrest as <- ->.
      destruct (IH p q ts eq_refl Hr) as (tp & tq & Hts & Hlen).
      exists ("~" :: tp), tq. split.
      * change (String "-" p) with ("-" +:+ p). rewrite before_app.
        rewrite Hts, <- app_assoc. reflexivity.
      * simpl. now rewrite Hlen.
  - destruct p as [|x p].
    + injection Hrest as -> ->. subst r.
      destruct (Scans_extends _ _ _ _ _ H1) as [tr ->].
      exists [], tr. split; [|reflexivity].
      rewrite <- app_assoc. simpl. unfold minus_token, before. simpl.
      simpl in Hu. now rewrite Hu.
    + injection Hrest as <- ->.
      destruct (IH p q ts eq_refl Hr) as (tp & tq & Hts & Hlen).
      exists (chr d :: tp), tq. split.
      * change (String d p) with (chr d +:+ p). rewrite before_app.
        rewrite Hts, <- app_assoc. reflexivity.
      * simpl. now rewrite Hlen.
  - discriminate.
Qed.

Lemma unary_position_last_char (p : string) :
  unary_position (last_char p) = true <-> p = "" \/ exists p', p = p' +:+ "(".
Proof.
  split.
  - induction p as [|x p IH]; [now left|]. intros H. right.
    destruct p as [|y p].
    + simpl in H. apply Ascii.eqb_eq in H. subst x. now exists "".
    + destruct (IH H) as [E|[p' E]]; [discriminate|].
      exists (String x p'). simpl. now rewrite <- E.
  - intros [->|[p' ->]]; [reflexivity|].
    now rewrite last_char_app by discriminate.
Qed.

(** ** The conversion to postfix is right on every well-formed tree *)

Lemma emitted_pending (e : expr) : emitted e ++ pending e = postfix e.
Proof.
  induction e as [lit|e IH|op l IHl r IHr|e IH]; simpl.
  - reflexivity.
  - now rewrite app_assoc, IH.
  - now rewrite <- app_assoc, (app_assoc (emitted r)), IHr.
  - apply app_nil_r.
Qed.

Lemma stack_ok_le (n m : Z) (stack : list string) :
  (n <= m)%Z -> stack_ok n stack -> stack_ok m stack.
Proof.
  destruct stack as [|top stack]; simpl; [auto|].
  intros Hle (p & Hp & Hlt). exists p. split; [exact Hp | lia].
Qed.

Lemma pending_ok_le (n m : Z) (sp : list string) :
  (m <= n)%Z -> pending_ok n sp -> pending_ok m sp.
Proof.
  intros Hle H. unfold pending_ok in *.
  eapply Forall_impl; [exact H|].
  intros t (Ht & p & Hp & Hge). split; [exact Ht|].
  exists p. split; [exact Hp | lia].
Qed.

Lemma prior_symbol (op : binop) : prior (symbol op) = Return (Some (rank op)).
Proof. destruct op; reflexivity. Qed.

Lemma level_ge (e : expr) : (2 <= level e)%Z.
Proof. destruct e as [| |[]|]; simpl; lia. Qed.

Lemma pending_wf (e : expr) : wf e -> pending_ok (level e) (pending e).
Proof.
  induction e as [lit|e IH|op l IHl r IHr|e IH]; simpl.
  - constructor.
  - intros [He Hl]. apply Forall_app. split.
    + apply (pending_ok_le (level e)); [lia | now apply IH].
    + repeat constructor. exists 4%Z. split; [reflexivity | lia].
  - intros (Hl & Hr & Hll & Hlr). apply Forall_app. split.
    + apply (pending_ok_le (level r)); [lia | now apply IHr].
    + repeat constructor; [now destruct op|].
      exists (rank op). split; [apply prior_symbol | lia].
  - constructor.
Qed.

Lemma pop_higher_pending (token : string) (q : Z) (sp stack out : list string) :
  prior token = Return (Some q) ->
  pending_ok q sp -> stack_ok q stack ->
  pop_higher token (sp ++ stack) out = Return (stack, out ++ sp).
Proof.
  intros Hq Hsp Hst. revert out.
  induction Hsp as [|t sp (_ & p & Hp & Hge) Hsp IH]; intros out.
  - rewrite app_nil_r. destruct stack as [|top stack]; [reflexivity|].
    destruct Hst as (p & Hp & Hlt). simpl. rewrite Hp, Hq. simpl.
    now replace (q <=? p)%Z with false by (symmetry; apply Z.leb_gt; lia).
  - simpl. rewrite Hp, Hq. simpl.
    replace (q <=? p)%Z with true by (symmetry; apply Z.leb_le; lia).
    rewrite IH. now rewrite <- app_assoc.
Qed.

Lemma pop_to_paren_pending (q : Z) (sp stack out : list string) :
  pending_ok q sp ->
  pop_to_paren (sp ++ "(" :: stack) out = Return (stack, out ++ sp).
Proof.
  intros Hsp. revert out.
  induction Hsp as [|t sp (Ht & _) Hsp IH]; intros out; simpl.
  - now rewrite app_nil_r.
  - rewrite Ht, IH. now rewrite <- app_assoc.
Qed.

Lemma infix_loop_number (lit : string) (rest stack out : list string) :
  number_token lit ->
  infix_loop (lit :: rest) stack out = infix_loop rest stack (out ++ [lit]).
Proof. destruct lit as [|c lit]; simpl; [contradiction|]. now intros ->. Qed.

Lemma infix_loop_symbol (op : binop) (rest stack out : list string) :
  infix_loop (symbol op :: rest) stack out =
    let* so := pop_higher (symbol op) stack out in
    infix_loop rest (symbol op :: fst so) (snd so).
Proof. destruct op; reflexivity. Qed.

(** Reading the tokens of [e] over a stack whose top binds less than [e]
    leaves the pending operators of [e] on that stack. *)
Lemma infix_loop_tokens (e : expr) :
  wf e ->
  forall rest stack out,
    stack_ok (level e) stack ->
    infix_loop (tokens e ++ rest) stack out
    = infix_loop rest (pending e ++ stack) (out ++ emitted e).
Proof.
  induction e as [lit|e IH|op l IHl r IHr|e IH]; intros Hwf rest stack out Hst.
  - simpl in *. now apply infix_loop_number.
  - destruct Hwf as [He Hl].
    change (tokens (Neg e) ++ rest) with ("~" :: (tokens e ++ rest)).
    change (infix_loop ("~" :: (tokens e ++ rest)) stack out)
      with (let* so := pop_higher "~" stack out in
            infix_loop (tokens e ++ rest) ("~" :: fst so) (snd so)).
    rewrite <- (app_nil_l stack) at 1.
    rewrite (pop_higher_pending "~" 4 [] stack out eq_refl (List.Forall_nil _) Hst).
    cbn [bind fst snd]. rewrite app_nil_r.
    rewrite IH; [|exact He|].
    + simpl. now rewrite <- app_assoc.
    + rewrite Hl. exists 4%Z. split; [reflexivity | lia].
  - destruct Hwf as (Hl & Hr & Hll & Hlr).
    change (tokens (Bin op l r)) with (tokens l ++ symbol op :: tokens r).
    rewrite <- app_assoc.
    rewrite IHl; [|exact Hl|apply (stack_ok_le (rank op)); [exact Hll | exact Hst]].
    change ((symbol op :: tokens r) ++ rest) with (symbol op :: (tokens r ++ rest)).
    rewrite infix_loop_symbol.
    rewrite (pop_higher_pending (symbol op) (rank op));
      [|apply prior_symbol
       |apply (pending_ok_le (level l)); [exact Hll | now apply pending_wf]
       |exact Hst].
    cbn [bind fst snd].
    rewrite IHr; [|exact Hr|].
    + simpl. rewrite <- !app_assoc. now rewrite (app_assoc (emitted l)), emitted_pending.
    + exists (rank op). split; [apply prior_symbol | exact Hlr].
  - simpl in Hwf.
    change (tokens (Paren e) ++ rest)
      with ("(" :: ((tokens e ++ [")"]) ++ rest)).
    rewrite <- app_assoc.
    change (infix_loop ("(" :: (tokens e ++ [")"] ++ rest)) stack out)
      with (infix_loop (tokens e ++ ")" :: rest) ("(" :: stack) out).
    rewrite IH; [|exact Hwf|].
    + change (infix_loop (")" :: rest) (pending e ++ "(" :: stack) (out ++ emitted e))
        with (let* so := pop_to_paren (pending e ++ "(" :: stack) (out ++ emitted e) in
              infix_loop rest (fst so) (snd so)).
      rewrite (pop_to_paren_pending (level e)) by now apply pending_wf.
      cbn [bind fst snd]. simpl. now rewrite <- app_assoc, emitted_pending.
    + exists 1%Z. split; [reflexivity|]. pose proof (level_ge e). lia.
Qed.

Lemma infix_to_postfix_tokens (e : expr) :
  wf e -> infix_to_postfix (tokens e) = Return (postfix e).
Proof.
  intros Hwf. unfold infix_to_postfix.
  rewrite <- (app_nil_r (tokens e)).
  rewrite (infix_loop_tokens e Hwf [] [] [] I).
  simpl. now rewrite app_nil_r, emitted_pending.
Qed.

(** ** The postfix evaluation is the standard value *)

Lemma bind_assoc {A B C : Type} (m : outcome A) (f : A -> outcome B)
    (g : B -> outcome C) :
  bind (bind m f) g = bind m (fun a => bind (f a) g).
Proof. now destruct m. Qed.

Lemma bind_Return {A : Type} (m : outcome A) : bind m Return = m.
Proof. now destruct m. Qed.

Lemma postfix_loop_number (lit : string) (rest : list string) (stack : list number) :
  number_token lit ->
  postfix_loop (lit :: rest) stack
  = let* v := cast_number lit in postfix_loop rest (v :: stack).
Proof. destruct lit as [|c lit]; simpl; [contradiction|]. now intros ->. Qed.

Lemma postfix_loop_symbol (op : binop) (rest : list string)
    (arg2 arg1 : number) (stack : list number) :
  postfix_loop (symbol op :: rest) (arg2 :: arg1 :: stack)
  = let* res := math_operation arg1 arg2 (symbol op) in
    postfix_loop rest (res :: stack).
Proof. destruct op; reflexivity. Qed.

Lemma postfix_loop_postfix (e : expr) :
  wf e ->
  forall rest stack,
    postfix_loop (postfix e ++ rest) stack
    = let* v := eval e in postfix_loop rest (v :: stack).
Proof.
  induction e as [lit|e IH|op l IHl r IHr|e IH]; intros Hwf rest stack.
  - simpl in *. now apply postfix_loop_number.
  - destruct Hwf as [He _]. simpl. rewrite <- app_assoc, (IH He).
    rewrite bind_assoc. reflexivity.
  - destruct Hwf as (Hl & Hr & _). simpl.
    rewrite <- app_assoc, (IHl Hl), bind_assoc.
    destruct (eval l) as [a|ex|]; try reflexivity. cbn [bind].
    rewrite <- app_assoc, (IHr Hr), bind_assoc.
    destruct (eval r) as [b|ex|]; try reflexivity. cbn [bind].
    apply postfix_loop_symbol.
  - simpl in *. now apply IH.
Qed.

Lemma postfix_calc_postfix (e : expr) :
  wf e -> postfix_calc (postfix e) = eval e.
Proof.
  intros Hwf. unfold postfix_calc.
  rewrite <- (app_nil_r (postfix e)), (postfix_loop_postfix e Hwf).
  simpl. apply bind_Return.
Qed.

(** ** The parentheses of a well-formed tree are accepted *)

Lemma number_token_not_paren (lit : string) :
  number_token lit -> String.eqb lit "(" = false /\ String.eqb lit ")" = false.
Proof.
  destruct lit as [|c lit]; [contradiction|]. simpl. intros Hd.
  split.
  - destruct (Ascii.eqb c "(") eqn:E; [|reflexivity].
    apply Ascii.eqb_eq in E. subst c. discriminate.
  - destruct (Ascii.eqb c ")") eqn:E; [|reflexivity].
    apply Ascii.eqb_eq in E. subst c. discriminate.
Qed.

(** Over the tokens of a tree the two counts grow by the same amount and
    the test inside the loop never fires. *)
Lemma check_loop_tokens (e : expr) :
  wf e ->
  forall rest o c,
    c <= o ->
    exists k, check_loop (tokens e ++ rest) o c = check_loop rest (o + k) (c + k).
Proof.
  induction e as [lit|e IH|op l IHl r IHr|e IH]; intros Hwf rest o c Hle.
  - simpl in *. destruct (number_token_not_paren lit Hwf) as [-> ->].
    exists 0. replace (o <? c)%nat with false by (symmetry; apply Nat.ltb_ge; lia).
    reflexivity.
  - destruct Hwf as [He _].
    destruct (IH He rest o c Hle) as [k Hk]. exists k.
    simpl. replace (o <? c)%nat with false by (symmetry; apply Nat.ltb_ge; lia).
    simpl. rewrite !Nat.add_0_r. exact Hk.
  - destruct Hwf as (Hl & Hr & _).
    destruct (IHl Hl (symbol op :: tokens r ++ rest) o c Hle) as [k1 Hk1].
    destruct (IHr Hr rest (o + k1) (c + k1) ltac:(lia)) as [k2 Hk2].
    exists (k1 + k2). simpl. rewrite <- app_assoc. simpl. rewrite Hk1.
    cbn [check_loop].
    replace (o + k1 <? c + k1)%nat with false by (symmetry; apply Nat.ltb_ge; lia).
    replace (int (String.eqb (symbol op) "(")) with 0 by now destruct op.
    replace (int (String.eqb (symbol op) ")")) with 0 by now destruct op.
    rewrite !Nat.add_0_r, Hk2. f_equal; lia.
  - simpl in Hwf.
    destruct (IH Hwf (")" :: rest) (o + 1) c ltac:(lia)) as [k Hk].
    exists (k + 1). simpl. rewrite <- app_assoc. simpl.
    replace (o <? c)%nat with false by (symmetry; apply Nat.ltb_ge; lia).
    rewrite Nat.add_0_r, Hk. cbn [check_loop].
    replace (o + 1 + k <? c + k)%nat with false by (symmetry; apply Nat.ltb_ge; lia).
    simpl. f_equal; lia.
Qed.

Lemma check_parentheses_of_loop (token_list : list string) :
  2 <= length token_list ->
  check_loop token_list 0 0 = Return tt ->
  check_parentheses token_list = Return tt.
Proof.
  destruct token_list as [|t0 [|t1 rest]]; simpl; try lia.
  intros _. unfold check_parentheses. simpl.
  destruct (_ <? _)%nat; [discriminate | auto].
Qed.

Lemma check_parentheses_tokens (e : expr) :
  wf e -> 2 <= length (tokens e) -> check_parentheses (tokens e) = Return tt.
Proof.
  intros Hwf Hlen. apply check_parentheses_of_loop; [exact Hlen|].
  destruct (check_loop_tokens e Hwf [] 0 0 (le_n 0)) as [k Hk].
  rewrite app_nil_r in Hk. rewrite Hk. simpl.
  now rewrite Nat.eqb_refl.
Qed.

(** ** What the running test of the validator is for *)

(** Only ["("] has a priority below 2. *)
Lemma prior_low (t : string) (q : Z) :
  prior t = Return (Some q) -> t = "(" \/ (2 <= q)%Z.
Proof.
  unfold prior, operators_priors.
  repeat (rewrite lookup_insert; case_decide;
          [subst; simpl; intros Hq;
           first [discriminate Hq
                 |injection Hq as <-; first [now left | right; lia]]|]).
  rewrite lookup_empty. discriminate.
Qed.

Lemma pop_to_paren_open (stack out : list string) :
  1 <= open_on stack ->
  exists stack' out',
    pop_to_paren stack out = Return (stack', out')
    /\ open_on stack = S (open_on stack').
Proof.
  revert out. induction stack as [|top stack IH]; intros out H; simpl in *; [lia|].
  destruct (String.eqb top "(") eqn:E; simpl in *.
  - now exists stack, out.
  - apply IH. exact H.
Qed.

Lemma pop_higher_open (token : string) (stack out stack' out' : list string) :
  String.eqb token "(" = false ->
  pop_higher token stack out = Return (stack', out') ->
  open_on stack' = open_on stack.
Proof.
  intros Ht. revert out. induction stack as [|top stack IH]; intros out; simpl.
  - now intros [= <- _].
  - destruct (prior top) as [p| |] eqn:Ep; simpl; try discriminate.
    destruct (prior token) as [q| |] eqn:Eq; simpl; try discriminate.
    destruct p as [x|], q as [y|]; simpl; try discriminate.
    destruct (y <=? x)%Z eqn:Ele.
    + intros H. rewrite (IH _ H).
      destruct (String.eqb top "(") eqn:E; [|reflexivity].
      apply String.eqb_eq in E. subst top.
      vm_compute in Ep. injection Ep as <-.
      apply Z.leb_le in Ele.
      destruct (prior_low token y Eq) as [->|Hy]; [discriminate | lia].
    + now intros [= <- _].
Qed.

Lemma pop_higher_not_IndexError (token : string) (stack out : list string) :
  pop_higher token stack out <> Raise IndexError.
Proof.
  revert out. induction stack as [|top stack IH]; intros out; simpl;
    [discriminate|].
  unfold prior.
  destruct (operators_priors !! top) as [p|]; simpl; [|discriminate].
  destruct (operators_priors !! token) as [q|]; simpl; [|discriminate].
  destruct p as [y|], q as [z|]; simpl; try discriminate.
  destruct (z <=? y)%Z; [apply IH | discriminate].
Qed.

(** Had the validator made its running test from the first token on
    ([check_loop] from the counts 0 and 0), the conversion would never pop
    an empty stack: with as many ["("] on the stack as are open, every
    [")"] finds one. *)
Lemma infix_loop_no_underflow (token_list : list string) :
  forall stack out o c,
    Forall (fun t => t <> "") token_list ->
    check_loop token_list o c = Return tt ->
    o - c <= open_on stack ->
    infix_loop token_list stack out <> Raise IndexError.
Proof.
  induction token_list as [|t rest IH]; intros stack out o c Hne Hchk Hst;
    [discriminate|].
  apply Forall_cons in Hne as [Ht Hne].
  simpl in Hchk. destruct (o <? c)%nat eqn:Eoc; [discriminate|].
  apply Nat.ltb_ge in Eoc.
  destruct t as [|x t]; [contradiction|].
  cbn [infix_loop index String.get bind].
  destruct (isdigit x) eqn:Hd.
  - destruct (number_token_not_paren (String x t) Hd) as [E1 E2].
    rewrite E1, E2 in Hchk. simpl in Hchk. rewrite !Nat.add_0_r in Hchk.
    now apply (IH _ _ o c).
  - destruct (String.eqb (String x t) "(") eqn:E1.
    + apply String.eqb_eq in E1. rewrite E1 in *. simpl in Hchk.
      rewrite Nat.add_0_r in Hchk.
      apply (IH _ _ (o + 1) c Hne Hchk). simpl. lia.
    + destruct (String.eqb (String x t) ")") eqn:E2.
      * simpl in Hchk. rewrite Nat.add_0_r in Hchk.
        assert (Hlt : c + 1 <= o).
        { destruct rest as [|t' rest']; simpl in Hchk.
          - destruct (o =? c + 1)%nat eqn:E; [|discriminate].
            apply Nat.eqb_eq in E. lia.
          - destruct (o <? c + 1)%nat eqn:E; [discriminate|].
            apply Nat.ltb_ge in E. lia. }
        destruct (pop_to_paren_open stack out) as (stack' & out' & Hpop & Hopen);
          [lia|].
        rewrite Hpop. cbn [bind fst snd].
        apply (IH _ _ o (c + 1) Hne Hchk). lia.
      * simpl in Hchk. rewrite !Nat.add_0_r in Hchk.
        destruct (pop_higher (String x t) stack out) as [[stack' out']|e|] eqn:Hpop;
          cbn [bind fst snd].
        -- apply (IH _ _ o c Hne Hchk). cbn [open_on]. rewrite E1.
           rewrite (pop_higher_open _ _ _ _ _ E1 Hpop). exact Hst.
        -- intros [= ->]. exact (pop_higher_not_IndexError _ _ _ Hpop).
        -- discriminate.
Qed.

(** The one sequence shape the validator lets through wrongly: accepted
    tokens that do not start with [")"] never make the conversion pop an
    empty stack. *)
Lemma accepted_tokens_no_underflow (token_list : list string) :
  Forall (fun t => t <> "") token_list ->
  check_parentheses token_list = Return tt ->
  (forall rest, token_list <> ")" :: rest) ->
  infix_to_postfix token_list <> Raise IndexError.
Proof.
  intros Hne Hchk Hfirst.
  apply (infix_loop_no_underflow token_list [] [] 0 0 Hne); [|simpl; lia].
  destruct token_list as [|t0 [|t1 rest]]; try discriminate.
  unfold check_parentheses in Hchk. simpl in Hchk |- *.
  destruct (String.eqb t0 ")") eqn:E.
  - apply String.eqb_eq in E. subst t0. now contradiction (Hfirst (t1 :: rest)).
  - destruct (String.eqb t0 "("); exact Hchk.
Qed.

(** ** From the tokens to the value *)

(** An accepted scan has met an operator: one of its tokens is no number. *)
Lemma Scans_Return_operator prev rest token_list operators ts :
  Scans prev rest token_list operators (Return ts) ->
  (operators <> 0 -> Exists (fun t => ~ number_token t) token_list) ->
  Exists (fun t => ~ number_token t) ts.
Proof.
  intros H. remember (Return ts) as r eqn:Er.
  induction H as [prev tl ops
                 |prev d rest tl ops num r Hd Hnum H1 IH
                 |prev rest tl ops r Hu H1 IH
                 |prev d rest tl ops r Hd Hk Hu H1 IH
                 |prev d rest tl ops Hd Hk]; intros Hinv; try discriminate.
  - destruct (ops =? 0)%nat eqn:E; [discriminate|]. injection Er as ->.
    apply Hinv. now apply Nat.eqb_neq.
  - apply (IH Er). intros Hops. apply Exists_app. left. auto.
  - apply (IH Er). intros Hops. apply Exists_app. left. auto.
  - apply (IH Er). intros _. apply Exists_app. right.
    constructor. simpl. congruence.
Qed.

Lemma tokens_length (e : expr) :
  1 <= length (tokens e) /\ (length (tokens e) < 2 -> exists lit, e = Num lit).
Proof.
  induction e as [lit|e IH|op l IHl r IHr|e IH]; simpl.
  - split; [lia | eauto].
  - split; lia.
  - rewrite length_app. simpl. split; lia.
  - rewrite length_app. simpl. split; lia.
Qed.

(** The four stages on an input whose tokens are those of a well-formed
    tree: the result is the standard value of the tree. *)
Lemma eval_math_expr_tokens (math_expr : string) (e : expr) :
  wf e ->
  split_to_tokens math_expr = Return (tokens e) ->
  eval_math_expr math_expr = eval e.
Proof.
  intros Hwf Htok. unfold eval_math_expr. rewrite Htok. cbn [bind].
  assert (Hlen : 2 <= length (tokens e)).
  { destruct (tokens_length e) as [H1 H2].
    destruct (Nat.lt_ge_cases (length (tokens e)) 2) as [Hlt|Hge]; [|exact Hge].
    destruct (H2 Hlt) as [lit ->]. exfalso.
    pose proof (split_to_tokens_Scans math_expr) as Hs. rewrite Htok in Hs.
    apply Scans_Return_operator in Hs; [|intros Hc; now contradiction Hc].
    simpl in Hs. apply Exists_cons in Hs as [Hs|Hs]; [now apply Hs|].
    now apply Exists_nil in Hs. }
  rewrite (check_parentheses_tokens e Hwf Hlen). cbn [bind].
  rewrite (infix_to_postfix_tokens e Hwf). cbn [bind].
  now apply postfix_calc_postfix.
Qed.

(** C4: on an accepted input, every [-] of the text without its white
    space is the text of one token, at the place of the [-]: the token
    ["~"] (unary minus) exactly when the [-] is the first character or
    stands right after a ["("], and the token ["-"] (subtraction)
    otherwise.  The unary minus applies to the one primary that follows:
    whenever the tokens are those of a well-formed tree, in which a
    negation holds a literal or a parenthesis, the result is the standard
    value of the tree, a negation being [0 - x].  So ["-5+3"] gives [-2]
    and ["(-5+3)*2"] gives [-4]. *)
Theorem minus_is_unary_at_start_or_after_paren :
  (forall math_str p q ts,
      remove_if isspace math_str = p +:+ String "-" q ->
      split_to_tokens math_str = Return ts ->
      exists tp tq,
        ts = tp ++ minus_token (last_char p) :: tq
        /\ text_length tp = String.length p)
  /\ (forall p, minus_token (last_char p) = "~"
                <-> (p = "" \/ exists p', p = p' +:+ "("))
  /\ (forall p, minus_token (last_char p) = "-"
                <-> ~ (p = "" \/ exists p', p = p' +:+ "("))
  /\ (forall math_expr e,
        wf e -> split_to_tokens math_expr = Return (tokens e) ->
        eval_math_expr math_expr = eval e)
  /\ (forall e, wf (Neg e)
                <-> (wf e /\ exists lit, e = Num lit)
                    \/ (wf e /\ exists e', e = Paren e'))
  /\ split_to_tokens "-5+3" = Return (tokens (Bin Add (Neg (Num "5")) (Num "3")))
  /\ eval_math_expr "-5+3" = Return (PyInt (-2))
  /\ split_to_tokens "(-5+3)*2"
     = Return (tokens (Bin Mul (Paren (Bin Add (Neg (Num "5")) (Num "3"))) (Num "2")))
  /\ eval_math_expr "(-5+3)*2" = Return (PyInt (-4)).
Proof.
  assert (Hminus : forall p, minus_token (last_char p) = "~"
                             <-> (p = "" \/ exists p', p = p' +:+ "(")).
  { intros p. rewrite <- unary_position_last_char. unfold minus_token.
    destruct (unary_position (last_char p)); split; (reflexivity || discriminate). }
  split; [|split; [exact Hminus|split; [|split; [|split]]]].
  - intros s p q ts Hs Htok.
    rewrite (accepted_whitespace s ts Htok) in Hs.
    pose proof (split_to_tokens_Scans s) as Hrun. rewrite Htok, Hs in Hrun.
    destruct (Scans_minus _ _ _ _ _ Hrun p q ts eq_refl eq_refl)
      as (tp & tq & Hts & Hlen).
    exists tp, tq. split; [|exact Hlen].
    rewrite Hts. simpl. unfold before.
    destruct (last_char p); reflexivity.
  - intros p. rewrite <- Hminus. unfold minus_token.
    destruct (unary_position (last_char p)); split; congruence.
  - exact eval_math_expr_tokens.
  - intros e. simpl. split.
    + intros [He Hl]. destruct e as [lit|e|op l r|e]; simpl in Hl.
      * left. eauto.
      * discriminate.
      * destruct op; discriminate.
      * right. eauto.
    + intros [[He [lit ->]]|[He [e' ->]]]; now split.
  - repeat split; reflexivity.
Qed.

Lemma minus_is_unary_at_start_or_after_paren_witness :
  (exists tp tq,
      ["("; "~"; "5"; "-"; "3"; ")"; "*"; "2"] = tp ++ "~" :: tq
      /\ text_length tp = 1)
  /\ (exists tp tq,
      ["("; "~"; "5"; "-"; "3"; ")"; "*"; "2"] = tp ++ "-" :: tq
      /\ text_length tp = 3)
  /\ eval_math_expr " ( -5 - 3 ) * 2" = Return (PyInt (-16)).
Proof.
  destruct minus_is_unary_at_start_or_after_paren as (Hcls & _ & _ & Hval & _).
  split; [|split].
  - exact (Hcls " ( -5 - 3 ) * 2" "(" "5-3)*2" _ eq_refl eq_refl).
  - exact (Hcls " ( -5 - 3 ) * 2" "(-5" "3)*2" _ eq_refl eq_refl).
  - rewrite (Hval " ( -5 - 3 ) * 2"
               (Bin Mul (Paren (Bin Sub (Neg (Num "5")) (Num "3"))) (Num "2"))).
    + reflexivity.
    + simpl. repeat split; lia.
    + reflexivity.
Defined.

(** ** From the text to the tokens *)

Lemma get_number_loop_literal (a rest : string) (dots : nat) :
  all (fun c => isdigit c || Ascii.eqb c ".") a = true ->
  count "." a + dots <= 2 ->
  get_number_loop (a +:+ rest) "" dots
  = a +:+ get_number_loop rest "" (dots + count "." a).
Proof.
  revert dots. induction a as [|x a IH]; intros dots Hall Hcount.
  - simpl. now rewrite Nat.add_0_r.
  - simpl in Hall. apply andb_true_iff in Hall as [Hx Hall].
    change (String x a +:+ rest) with (String x (a +:+ rest)).
    rewrite get_number_loop_cons. simpl in Hcount |- *.
    destruct (isdigit x) eqn:Hd.
    + rewrite (isdigit_not_point x Hd) in *. simpl in *.
      now rewrite IH.
    + simpl in Hx. rewrite Hx in *. simpl in *.
      replace (dots <? 2)%nat with true by (symmetry; apply Nat.ltb_lt; lia).
      rewrite IH by (assumption || lia).
      do 3 f_equal. lia.
Qed.

Lemma get_number_loop_ends (rest : string) (dots : nat) :
  ends_text rest -> get_number_loop rest "" dots = "".
Proof.
  destruct rest as [|c rest]; [reflexivity|]. intros [Hd Hp].
  simpl. now rewrite Hd, Hp.
Qed.

Lemma literal_scanned (lit rest : string) :
  literal lit -> ends_text rest -> get_number_loop (lit +:+ rest) "" 0 = lit.
Proof.
  intros (_ & Hall & Hcount) Hrest.
  rewrite get_number_loop_literal by (assumption || lia).
  rewrite get_number_loop_ends by exact Hrest. apply append_nil_r.
Qed.

Lemma all_last_char (p : ascii -> bool) (s : string) (c : ascii) :
  all p s = true -> last_char s = Some c -> p c = true.
Proof.
  induction s as [|x s IH]; [discriminate|]. simpl.
  intros H. apply andb_true_iff in H as [Hx Hs].
  destruct s; [now intros [= <-] | now apply IH].
Qed.

(** The text of an expression ends with a digit, a point or [")"]: what
    follows it is not in unary position. *)
Lemma render_last (e : expr) (u : bool) :
  written u e ->
  render e <> "" /\ unary_position (last_char (render e)) = false.
Proof.
  revert u. induction e as [lit|e IH|op l IHl r IHr|e IH]; intros u Hw;
    simpl in Hw.
  - destruct Hw as (Hn & Hall & _). simpl render.
    split; [now destruct lit|].
    destruct (last_char lit) as [c|] eqn:El.
    + pose proof (all_last_char _ _ _ Hall El) as Hc. simpl.
      destruct (Ascii.eqb c "(") eqn:E; [|reflexivity].
      apply Ascii.eqb_eq in E. subst c. discriminate.
    + apply last_char_None in El. subst lit. contradiction.
  - destruct Hw as [_ Hw]. destruct (IH _ Hw) as [Hne Hu].
    change (render (Neg e)) with ("-" +:+ render e).
    split; [discriminate|].
    now rewrite last_char_app.
  - destruct Hw as [_ Hr]. destruct (IHr _ Hr) as [Hne Hu].
    assert (Hne' : symbol op +:+ render r <> "") by now destruct op.
    change (render (Bin op l r)) with (render l +:+ symbol op +:+ render r).
    split.
    + destruct (render l); [exact Hne' | discriminate].
    + rewrite last_char_app by exact Hne'. now rewrite last_char_app.
  - change (render (Paren e)) with ("(" +:+ (render e +:+ ")")).
    split; [discriminate|].
    rewrite last_char_app by (apply append_not_empty; discriminate).
    now rewrite last_char_app by discriminate.
Qed.

(** The scan of the text of an expression appends its tokens and counts
    its binary operators. *)
Lemma Scans_render (e : expr) :
  forall u prev rest token_list operators r,
    written u e ->
    (u = true -> unary_position prev = true) ->
    ends_text rest ->
    Scans (last_char (render e)) rest (token_list ++ tokens e)
      (operators + binops e) r ->
    Scans prev (render e +:+ rest) token_list operators r.
Proof.
  induction e as [lit|e IH|op l IHl r0 IHr|e IH];
    intros u prev rest tl ops r Hw Hu Hrest Hrun.
  - simpl in Hw. pose proof Hw as (Hn & _).
    destruct lit as [|c lit]; [contradiction|]. simpl in Hn.
    change (render (Num (String c lit)) +:+ rest) with (String c (lit +:+ rest)).
    apply (Scans_number _ _ _ _ _ (String c lit)); [exact Hn| |].
    + symmetry. exact (literal_scanned (String c lit) rest Hw Hrest).
    + change (String c (lit +:+ rest)) with (String c lit +:+ rest).
      rewrite slice_from_app.
      change (binops (Num (String c lit))) with 0 in Hrun.
      now rewrite Nat.add_0_r in Hrun.
  - simpl in Hw. destruct Hw as [-> Hw].
    destruct (render_last e _ Hw) as [Hne _].
    change (render (Neg e) +:+ rest) with (String "-" (render e +:+ rest)).
    apply Scans_unary; [now apply Hu|].
    apply (IH false); [exact Hw | discriminate | exact Hrest |].
    change (render (Neg e)) with ("-" +:+ render e) in Hrun.
    change (tokens (Neg e)) with (["~"] ++ tokens e) in Hrun.
    change (binops (Neg e)) with (binops e) in Hrun.
    rewrite last_char_app in Hrun by exact Hne.
    now rewrite <- app_assoc.
  - simpl in Hw. destruct Hw as [Hl Hr].
    destruct (render_last l _ Hl) as [Hnl Hul].
    destruct (render_last r0 _ Hr) as [Hnr Hur].
    assert (Hs : symbol op = chr (symbol_char op)) by now destruct op.
    change (render (Bin op l r0)) with (render l +:+ symbol op +:+ render r0) in *.
    change (tokens (Bin op l r0)) with (tokens l ++ [symbol op] ++ tokens r0) in Hrun.
    change (binops (Bin op l r0)) with (binops l + 1 + binops r0) in Hrun.
    rewrite !append_assoc, Hs. rewrite Hs in Hrun.
    apply (IHl u); [exact Hl | exact Hu | now destruct op |].
    change (chr (symbol_char op) +:+ render r0 +:+ rest)
      with (String (symbol_char op) (render r0 +:+ rest)).
    apply Scans_operator.
    + now destruct op.
    + destruct op; now eexists.
    + rewrite Hul. apply andb_false_r.
    + replace (negb (Ascii.eqb (symbol_char op) "(" || Ascii.eqb (symbol_char op) ")"))
        with true by now destruct op.
      apply (IHr false); [exact Hr | discriminate | exact Hrest |].
      rewrite last_char_app in Hrun by (apply append_not_empty; exact Hnr).
      rewrite last_char_app in Hrun by exact Hnr.
      rewrite <- !app_assoc.
      now replace (ops + binops l + 1 + binops r0)
        with (ops + (binops l + 1 + binops r0)) by lia.
  - simpl in Hw. destruct (render_last e _ Hw) as [Hne Hue].
    change (render (Paren e)) with ("(" +:+ (render e +:+ ")")) in *.
    change (tokens (Paren e)) with (["("] ++ tokens e ++ [")"]) in Hrun.
    change (binops (Paren e)) with (binops e) in Hrun.
    rewrite last_char_app in Hrun by (apply append_not_empty; discriminate).
    rewrite last_char_app in Hrun by discriminate.
    change (("(" +:+ render e +:+ ")") +:+ rest)
      with (String "(" ((render e +:+ ")") +:+ rest)).
    rewrite append_assoc.
    apply Scans_operator; [reflexivity | now eexists | reflexivity |].
    cbn [negb Ascii.eqb orb].
    apply (IH true); [exact Hw | reflexivity | split; reflexivity |].
    change (")" +:+ rest) with (String ")" rest).
    apply Scans_operator; [reflexivity | now eexists | reflexivity |].
    rewrite <- !app_assoc. exact Hrun.
Qed.


(** ** The value of an expression text *)




(** ** Numbers *)

Lemma try_except_Return {A : Type} (m : outcome A) (caught : exn -> bool)
    (e : exn) (v : A) :
  try_except m caught (Raise e) = Return v -> m = Return v.
Proof.
  destruct m as [a|e'|]; simpl; [auto| |discriminate].
  destruct (caught e'); discriminate.
Qed.

(** C7: a literal that converts gives a float exactly when it contains a
    point; a division that returns gives a float, also on two integers,
    so ["10/2"] gives the float 5.0; and [+], [-], [*] (and the unary
    minus, a subtraction from 0) give a float exactly when an operand is a
    float, the result on two integers being the exact integer. *)
Theorem numbers_are_promoted :
  (forall number v,
      cast_number number = Return v -> is_float v = contains "." number)
  /\ (forall a b op v,
        op = "/" \/ op = ":" ->
        math_operation a b op = Return v -> is_float v = true)
  /\ (forall a b op v,
        op = "+" \/ op = "-" \/ op = "*" \/ op = "~" ->
        math_operation a b op = Return v ->
        is_float v = is_float a || is_float b)
  /\ (forall x y,
        math_operation (PyInt x) (PyInt y) "+" = Return (PyInt (x + y))
        /\ math_operation (PyInt x) (PyInt y) "-" = Return (PyInt (x - y))
        /\ math_operation (PyInt x) (PyInt y) "*" = Return (PyInt (x * y)))
  /\ cast_number "10" = Return (PyInt 10)
  /\ cast_number "2.5" = Return (PyFloat float_2_5)
  /\ float_of_int 5 = Return float_5
  /\ eval_math_expr "10/2" = Return (PyFloat float_5).
Proof.
  assert (Harith : forall fi ff a b v,
             arith fi ff a b = Return v -> is_float v = is_float a || is_float b).
  { intros fi ff a b v. unfold arith.
    destruct a as [x|x], b as [y|y]; simpl;
      try (intros [= <-]; reflexivity);
      repeat match goal with
             | |- context [float_of_int ?z] => destruct (float_of_int z); simpl
             end;
      try discriminate; intros [= <-]; reflexivity. }
  split; [|split; [|split; [|split]]].
  - intros number v. unfold cast_number.
    destruct (contains "." number).
    + destruct (float_of_str number); simpl; [|discriminate..].
      now intros [= <-].
    + destruct (int_of_str number); simpl; [|discriminate..].
      now intros [= <-].
  - intros a b op v Hop.
    assert (Hm : math_operation a b op
                 = try_except (truediv a b) is_ZeroDivisionError sys_exit)
      by now destruct Hop as [-> | ->].
    rewrite Hm. intros H. apply try_except_Return in H.
    revert H. unfold truediv.
    destruct a as [x|x], b as [y|y]; simpl.
    + destruct y as [|d|d]; simpl; [discriminate| |];
        destruct (is_infinite _); simpl; try discriminate; now intros [= <-].
    + destruct (float_of_int x); simpl; try discriminate.
      destruct (is_zero y); simpl; try discriminate. now intros [= <-].
    + destruct (float_of_int y) as [f| |]; simpl; try discriminate.
      destruct (is_zero f); simpl; try discriminate. now intros [= <-].
    + destruct (is_zero y); simpl; try discriminate. now intros [= <-].
  - intros a b op v Hop.
    destruct Hop as [-> | [-> | [-> | ->]]]; apply Harith.
  - intros x y. repeat split; reflexivity.
  - repeat split; reflexivity.
Qed.

Lemma numbers_are_promoted_witness :
  is_float (PyFloat float_5) = contains "." "5.0"
  /\ is_float (PyFloat float_5) = true
  /\ is_float (PyFloat float_5) = is_float (PyInt 2) || is_float (PyFloat float_2_5).
Proof.
  destruct numbers_are_promoted as (Hcast & Hdiv & Hop & _).
  split; [|split].
  - apply Hcast. reflexivity.
  - apply (Hdiv (PyInt 10) (PyInt 2) "/"); [now left | reflexivity].
  - apply (Hop (PyInt 2) (PyFloat float_2_5) "*"); [tauto | reflexivity].
Defined.

(** ** Division by zero *)

Lemma float_of_int_too_large (z : Z) :
  float_of_int z = if too_large (PyInt z) then Raise OverflowError
                   else Return (binary_normalize prec emax z 0 false).
Proof. reflexivity. Qed.

(** A division by zero: [sys.exit], unless the conversion of the dividend
    fails first. *)
Lemma math_operation_zero (a b : number) (op : string) :
  op = "/" \/ op = ":" ->
  is_zero_number b = true ->
  math_operation a b op
  = if is_float b && too_large a then Raise OverflowError else Raise SystemExit.
Proof.
  intros Hop Hb.
  assert (Hm : math_operation a b op
               = try_except (truediv a b) is_ZeroDivisionError sys_exit)
    by now destruct Hop as [-> | ->].
  rewrite Hm. unfold truediv, sys_exit.
  destruct a as [x|x], b as [y|y]; simpl in Hb |- *.
  - apply Z.eqb_eq in Hb. now subst y.
  - rewrite float_of_int_too_large. simpl.
    destruct (is_infinite _); simpl; [reflexivity|]. now rewrite Hb.
  - apply Z.eqb_eq in Hb. now subst y.
  - now rewrite Hb.
Qed.

Lemma Divides_by_zero_eval (e : expr) :
  Divides_by_zero e -> eval e = Raise SystemExit.
Proof.
  induction 1 as [op l r a b Hop Hl Hr Hb Hc|op l r _ IH|op l r a Hl _ IH
                 |e _ IH|e _ IH]; simpl.
  - rewrite Hl, Hr. simpl.
    rewrite math_operation_zero; [now rewrite Hc| |exact Hb].
    destruct Hop as [-> | ->]; auto.
  - now rewrite IH.
  - now rewrite Hl, IH.
  - now rewrite IH.
  - exact IH.
Qed.

(** A [SystemExit] passes through both handlers of the command loop. *)
Lemma main_loop_exit (math_expr : string) (rest : list string) :
  eval_math_expr math_expr = Raise SystemExit ->
  main_loop (math_expr :: rest) = ([], Uncaught SystemExit).
Proof.
  intros H. simpl. destruct (String.eqb math_expr "q") eqn:E.
  - apply String.eqb_eq in E. subst math_expr. discriminate.
  - simpl. now rewrite H.
Qed.

(** C3, as the code has it: a division ([/] or [:]) whose divisor is
    exactly zero never returns a number; it calls [sys.exit], except when
    the divisor is a float zero and the dividend an integer too large for
    a float, where the conversion raises [OverflowError] first.  The
    [SystemExit] ends the postfix evaluation whatever follows, so every
    accepted expression whose evaluation comes to such a division raises
    it; it is no [CalculatorError] and no [Exception], no handler of the
    command loop catches it, and the run ends there.  ["5/0"] does so. *)
Theorem division_by_zero_exits :
  (forall a b op v,
      op = "/" \/ op = ":" -> is_zero_number b = true ->
      math_operation a b op <> Return v)
  /\ (forall a b op,
        op = "/" \/ op = ":" -> is_zero_number b = true ->
        is_float b && too_large a = false ->
        math_operation a b op = Raise SystemExit)
  /\ (forall a b op rest stack,
        op = "/" \/ op = ":" -> is_zero_number b = true ->
        is_float b && too_large a = false ->
        postfix_loop (op :: rest) (b :: a :: stack) = Raise SystemExit)
  /\ (forall math_expr e rest,
        wf e -> split_to_tokens math_expr = Return (tokens e) ->
        Divides_by_zero e ->
        eval_math_expr math_expr = Raise SystemExit
        /\ main_loop (math_expr :: rest) = ([], Uncaught SystemExit))
  /\ is_CalculatorError SystemExit = false
  /\ is_Exception SystemExit = false
  /\ eval_math_expr "5/0" = Raise SystemExit
  /\ main_loop ["1+1"; "5/0"; "2+2"; "q"] = ([Result (PyInt 2)], Uncaught SystemExit).
Proof.
  split; [|split; [|split; [|split; [|repeat split; reflexivity]]]].
  - intros a b op v Hop Hb. rewrite (math_operation_zero a b op Hop Hb).
    destruct (_ && _); discriminate.
  - intros a b op Hop Hb Hc. rewrite (math_operation_zero a b op Hop Hb).
    now rewrite Hc.
  - intros a b op rest stack Hop Hb Hc.
    assert (Hm := math_operation_zero a b op Hop Hb). rewrite Hc in Hm.
    destruct Hop as [-> | ->]; simpl; now rewrite Hm.
  - intros s e rest Hwf Htok Hdz.
    assert (H : eval_math_expr s = Raise SystemExit).
    { rewrite (eval_math_expr_tokens s e Hwf Htok).
      now apply Divides_by_zero_eval. }
    split; [exact H | now apply main_loop_exit].
Qed.

Lemma division_by_zero_exits_witness :
  math_operation (PyFloat float_2_5) (PyInt 0) ":" = Raise SystemExit
  /\ eval_math_expr "7-(2.5+1)/(3-3)" = Raise SystemExit
  /\ main_loop ["7-(2.5+1)/(3-3)"; "1+1"] = ([], Uncaught SystemExit).
Proof.
  destruct division_by_zero_exits as (_ & Hop & _ & Hrun & _).
  split; [apply Hop; [now right | reflexivity | reflexivity]|].
  apply (Hrun _ (Bin Sub (Num "7")
                   (Bin Div (Paren (Bin Add (Num "2.5") (Num "1")))
                      (Paren (Bin Sub (Num "3") (Num "3")))))).
  - simpl. repeat split; lia.
  - reflexivity.
  - eapply Dz_right; [reflexivity|].
    eapply Dz_here; [now left | reflexivity | reflexivity | reflexivity | reflexivity].
Defined.

(** C3 as stated fails when the dividend is an integer beyond the floats
    and the divisor a float zero: on [10^309 / 0.0] the divisor evaluates
    to exactly zero, yet the division raises [OverflowError], which the
    command loop catches as an unexpected error, and the run goes on. *)
Lemma huge_dividend_counterexample :
  cast_number "0.0" = Return (PyFloat (S754_zero false))
  /\ is_zero_number (PyFloat (S754_zero false)) = true
  /\ cast_number ("1" +:+ zeros 309) = Return (PyInt (10 ^ 309))
  /\ math_operation (PyInt (10 ^ 309)) (PyFloat (S754_zero false)) "/"
     = Raise OverflowError
  /\ eval_math_expr ("1" +:+ zeros 309 +:+ "/0.0") = Raise OverflowError
  /\ main_loop ["1" +:+ zeros 309 +:+ "/0.0"; "1+1"; "q"]
     = ([UnexpectedErrorOccurred; Result (PyInt 2)], Quit).
Proof. repeat split; vm_compute; reflexivity. Qed.

(** * Further properties of the functions *)

(** ** [get_number] *)

Lemma slice_from_slice_from (n m : nat) (s : string) :
  slice_from n (slice_from m s) = slice_from (m + n) s.
Proof.
  revert s. induction m as [|m IH]; intros s; [reflexivity|].
  destruct s as [|c s]; simpl; [now destruct n | apply IH].
Qed.

Lemma slice_from_beyond (n : nat) (s : string) :
  String.length s <= n -> slice_from n s = "".
Proof.
  revert s. induction n as [|n IH]; intros s H.
  - destruct s; [reflexivity | simpl in H; lia].
  - destruct s as [|c s]; [reflexivity|]. simpl in *. apply IH. lia.
Qed.

Lemma get_number_loop_number_chars (rest : string) (dots : nat) :
  all number_char (get_number_loop rest "" dots) = true.
Proof.
  revert dots. induction rest as [|x rest IH]; intros dots; [reflexivity|].
  rewrite get_number_loop_cons. unfold number_char at 1.
  destruct (isdigit x) eqn:Hd.
  { cbn [all]. rewrite IH. unfold number_char. now rewrite Hd. }
  destruct (Ascii.eqb x ".") eqn:Hp; simpl; [|reflexivity].
  destruct (dots <? 2)%nat; simpl; [|reflexivity].
  rewrite IH. unfold number_char. now rewrite Hd, Hp.
Qed.

(** Where the loop stops: at the end, or before a character that is no
    digit and that is no point unless two points are already taken. *)
Lemma get_number_loop_maximal (rest : string) (dots : nat) :
  dots <= 2 ->
  match slice_from (String.length (get_number_loop rest "" dots)) rest with
  | EmptyString => True
  | String c _ =>
      isdigit c = false
      /\ (Ascii.eqb c "." = false
          \/ dots + count "." (get_number_loop rest "" dots) = 2)
  end.
Proof.
  revert dots. induction rest as [|x rest IH]; intros dots Hd; [exact I|].
  rewrite get_number_loop_cons.
  destruct (isdigit x) eqn:Ex.
  - cbn [String.length slice_from count]. rewrite (isdigit_not_point x Ex).
    apply IH. exact Hd.
  - destruct (Ascii.eqb x ".") eqn:Ep; cbn [andb].
    + destruct (dots <? 2)%nat eqn:El.
      * apply Nat.ltb_lt in El.
        cbn [String.length slice_from count]. rewrite Ep.
        specialize (IH (dots + 1) ltac:(lia)).
        destruct (slice_from _ rest); [exact I|].
        destruct IH as [H1 [H2|H2]]; split; auto. right. lia.
      * apply Nat.ltb_ge in El. simpl. split; [exact Ex|]. right. lia.
    + simpl. split; [exact Ex|]. now left.
Qed.

(** X1: what [get_number] returns is the longest run of digits and points
    that starts at [start] and holds at most two points: it is a prefix of
    [math_str[start:]], made of digits and points only, with two points at
    most, and the text goes on after it with a character that is no digit
    and that is a point only when the run already has two.  Past the end
    of the text the result is empty, without an error. *)
Theorem get_number_longest_run :
  forall math_str start,
    slice_from start math_str
    = get_number math_str start
      +:+ slice_from (start + String.length (get_number math_str start)) math_str
    /\ all number_char (get_number math_str start) = true
    /\ count "." (get_number math_str start) <= 2
    /\ match slice_from (start + String.length (get_number math_str start)) math_str with
       | EmptyString => True
       | String c _ =>
           isdigit c = false
           /\ (Ascii.eqb c "." = false \/ count "." (get_number math_str start) = 2)
       end
    /\ get_number math_str (String.length math_str + start) = "".
Proof.
  intros math_str start. unfold get_number.
  set (rest := slice_from start math_str).
  split; [|split; [|split; [|split]]].
  - rewrite <- slice_from_slice_from. apply get_number_loop_prefix.
  - apply get_number_loop_number_chars.
  - pose proof (get_number_loop_points rest 0). lia.
  - rewrite <- slice_from_slice_from. fold rest.
    exact (get_number_loop_maximal rest 0 ltac:(lia)).
  - rewrite slice_from_beyond by lia. reflexivity.
Qed.

(** ** [cast_number] *)






(** ** [split_to_tokens]: the tokens and the text *)

Lemma tilde_to_minus_app (a b : string) :
  tilde_to_minus (a +:+ b) = tilde_to_minus a +:+ tilde_to_minus b.
Proof. induction a as [|x a IH]; simpl; [reflexivity | now rewrite IH]. Qed.

Lemma get_number_loop_literal_token (c : ascii) (rest : string) :
  isdigit c = true -> literal (get_number_loop (String c rest) "" 0).
Proof.
  intros Hd. split; [|split].
  - rewrite get_number_loop_cons, Hd. exact Hd.
  - exact (get_number_loop_number_chars (String c rest) 0).
  - pose proof (get_number_loop_points (String c rest) 0). lia.
Qed.

(** What a scan that returns has added: literals and operator tokens that
    spell the text it has read. *)
Lemma Scans_Return_tokens prev rest token_list operators ts :
  Scans prev rest token_list operators (Return ts) ->
  exists tr,
    ts = token_list ++ tr
    /\ Forall (fun t => literal t \/ operator_token t) tr
    /\ tilde_to_minus (join tr) = tilde_to_minus rest.
Proof.
  intros H. remember (Return ts) as r eqn:Er.
  induction H as [prev tl ops
                 |prev d rest tl ops num r Hd Hnum H1 IH
                 |prev rest tl ops r Hu H1 IH
                 |prev d rest tl ops r Hd Hk Hu H1 IH
                 |prev d rest tl ops Hd Hk]; try discriminate.
  - destruct (ops =? 0)%nat; [discriminate|]. injection Er as ->.
    exists []. rewrite app_nil_r. repeat split. constructor.
  - destruct (IH Er) as (tr & -> & Hok & Htext).
    exists (num :: tr). rewrite <- app_assoc. split; [reflexivity|]. split.
    + constructor; [|exact Hok]. left. rewrite Hnum.
      now apply get_number_loop_literal_token.
    + cbn [join foldr]. fold (join tr).
      rewrite tilde_to_minus_app, Htext, <- tilde_to_minus_app.
      f_equal. rewrite Hnum. symmetry. apply get_number_loop_prefix.
  - destruct (IH Er) as (tr & -> & Hok & Htext).
    exists ("~" :: tr). rewrite <- app_assoc. split; [reflexivity|]. split.
    + constructor; [|exact Hok]. right. exists "~"%char.
      repeat split. now eexists.
    + cbn [join foldr]. fold (join tr). simpl. now rewrite Htext.
  - destruct (IH Er) as (tr & -> & Hok & Htext).
    exists (chr d :: tr). rewrite <- app_assoc. split; [reflexivity|]. split.
    + constructor; [|exact Hok]. right. now exists d.
    + cbn [join foldr]. fold (join tr). simpl. now rewrite Htext.
Qed.

(** X3: the tokens of an accepted input.  Each token is a number literal
    of the scanner (digits and points, a digit first, two points at most)
    or one character that is a key of [operators_priors]; and the tokens,
    written one after the other, are the input without its spaces, the
    unary minus being written ["~"]: nothing is lost and nothing added. *)
Theorem split_to_tokens_spells_text :
  forall math_str ts,
    split_to_tokens math_str = Return ts ->
    Forall (fun t => literal t \/ operator_token t) ts
    /\ tilde_to_minus (join ts) = tilde_to_minus (remove_char " " math_str)
    /\ text_length ts = String.length (remove_char " " math_str).
Proof.
  intros s ts H. pose proof (split_to_tokens_Scans s) as Hs. rewrite H in Hs.
  destruct (Scans_Return_tokens _ _ _ _ _ Hs) as (tr & -> & Hok & Htext).
  simpl. split; [exact Hok|]. split; [exact Htext|].
  assert (Hlen : forall s0, String.length (tilde_to_minus s0) = String.length s0).
  { induction s0 as [|c s0 IH]; simpl; [reflexivity | now rewrite IH]. }
  rewrite <- (Hlen (remove_char " " s)), <- Htext, Hlen.
  clear. induction tr as [|t tr IH]; simpl; [reflexivity|].
  fold (join tr). now rewrite length_append, IH.
Qed.

Lemma split_to_tokens_spells_text_witness :
  Forall (fun t => literal t \/ operator_token t)
    ["("; "~"; "1.5"; "-"; "2"; ")"; "*"; "3"]
  /\ tilde_to_minus (join ["("; "~"; "1.5"; "-"; "2"; ")"; "*"; "3"])
     = tilde_to_minus "(-1.5-2)*3"
  /\ text_length ["("; "~"; "1.5"; "-"; "2"; ")"; "*"; "3"] = 10.
Proof. exact (split_to_tokens_spells_text " (-1.5 - 2) * 3" _ eq_refl). Defined.

(** ** [split_to_tokens]: when there is nothing to do *)

Lemma number_char_no_key (c : ascii) :
  number_char c = true -> operators_priors !! chr c = None.
Proof.
  destruct c as [[] [] [] [] [] [] [] []]; vm_compute; congruence.
Qed.

Lemma append_split (a b p : string) (c : ascii) (q : string) :
  a +:+ b = p +:+ String c q ->
  (exists a2, a = p +:+ String c a2)
  \/ (exists p', p = a +:+ p' /\ b = p' +:+ String c q).
Proof.
  revert p. induction a as [|x a IH]; intros p H.
  - right. now exists p.
  - destruct p as [|y p]; simpl in H.
    + injection H as -> _. left. now exists a.
    + injection H as -> H. destruct (IH p H) as [[a2 ->]|(p' & -> & ->)].
      * left. now exists a2.
      * right. now exists p'.
Qed.

Lemma all_in (f : ascii -> bool) (p : string) (c : ascii) (q : string) :
  all f (p +:+ String c q) = true -> f c = true.
Proof.
  rewrite all_app. simpl. intros H.
  apply andb_true_iff in H as [_ H]. now apply andb_true_iff in H as [H _].
Qed.

Lemma before_nonempty (prev : option ascii) (s : string) :
  s <> "" -> before prev s = last_char s.
Proof.
  intros H. unfold before. destruct (last_char s) eqn:E; [reflexivity|].
  apply last_char_None in E. contradiction.
Qed.

(** A run that meets no unexpected symbol raises [NothingToDoError]
    exactly when it starts with no operator counted and reads no counted
    character. *)
Lemma Scans_nothing_to_do prev rest token_list operators r :
  Scans prev rest token_list operators r ->
  (forall x, r <> Raise (UnexpectedInput x)) ->
  (r = Raise NothingToDoError
   <-> operators = 0
       /\ forall p c q, rest = p +:+ String c q -> counted (before prev p) c = false).
Proof.
  induction 1 as [prev tl ops
                 |prev d rest tl ops num r Hd Hnum H1 IH
                 |prev rest tl ops r Hu H1 IH
                 |prev d rest tl ops r Hd Hk Hu H1 IH
                 |prev d rest tl ops Hd Hk]; intros Hnx.
  - split.
    + destruct (ops =? 0)%nat eqn:E; [|discriminate]. intros _.
      apply Nat.eqb_eq in E. split; [exact E|].
      intros p c q Hp. destruct p; discriminate.
    + intros [-> _]. reflexivity.
  - rewrite (IH Hnx). clear IH.
    assert (Hn : num <> "")
      by (rewrite Hnum, get_number_loop_cons, Hd; discriminate).
    pose proof (get_number_loop_prefix (String d rest) 0) as Hpre.
    rewrite <- Hnum in Hpre.
    assert (Hchars : all number_char num = true)
      by (rewrite Hnum; apply get_number_loop_number_chars).
    split; intros [Hops Hc]; (split; [exact Hops|]); intros p c q Hp.
    + rewrite Hpre in Hp. apply append_split in Hp.
      destruct Hp as [[a2 Ha]|(p' & -> & Hp')].
      * rewrite Ha in Hchars. apply all_in in Hchars.
        unfold counted. rewrite (number_char_no_key c Hchars).
        reflexivity.
      * rewrite before_app, (before_nonempty prev num Hn). now apply (Hc p' c q).
    + specialize (Hc (num +:+ p) c q).
      rewrite before_app, (before_nonempty prev num Hn) in Hc.
      apply Hc. rewrite Hpre at 1. rewrite append_assoc. now rewrite Hp.
  - rewrite (IH Hnx). clear IH.
    split; intros [Hops Hc]; (split; [exact Hops|]); intros p c q Hp.
    + destruct p as [|y p].
      * injection Hp as <- _. unfold counted, before. simpl.
        rewrite Hu. now rewrite andb_false_r.
      * injection Hp as <- Hp.
        change (String "-" p) with ("-" +:+ p). rewrite before_app.
        now apply (Hc p c q).
    + specialize (Hc ("-" +:+ p) c q). rewrite before_app in Hc.
      apply Hc. simpl. now rewrite Hp.
  - rewrite (IH Hnx). clear IH.
    destruct (Ascii.eqb d "(" || Ascii.eqb d ")") eqn:Epar; cbn [negb].
    + split; intros [Hops Hc]; (split; [exact Hops|]); intros p c q Hp.
      * destruct p as [|y p].
        -- injection Hp as <- _. unfold counted. rewrite Epar.
           now rewrite andb_false_r.
        -- injection Hp as <- Hp.
           change (String d p) with (chr d +:+ p). rewrite before_app.
           now apply (Hc p c q).
      * specialize (Hc (chr d +:+ p) c q). rewrite before_app in Hc.
        apply Hc. simpl. now rewrite Hp.
    + split; [intros [Hops _]; lia|].
      intros [_ Hc]. specialize (Hc "" d rest eq_refl).
      unfold counted, before in Hc. simpl in Hc.
      rewrite (bool_decide_eq_true_2 _ Hk), Epar, Hu in Hc. discriminate.
  - exfalso. exact (Hnx d eq_refl).
Qed.

(** X4: when the tokenizer finds nothing to do.  On an input scanned
    without an unexpected symbol, [split_to_tokens] raises
    [NothingToDoError] exactly when no character of the text is counted as
    an operator, the counted characters being [+], [*], [/], [:], ["~"] and
    every [-] that is neither first nor right after a ["("]; otherwise it
    returns the tokens. *)
Theorem split_to_tokens_nothing_to_do :
  forall math_str,
    (forall x, split_to_tokens math_str <> Raise (UnexpectedInput x)) ->
    (split_to_tokens math_str = Raise NothingToDoError
     <-> forall p c q,
           remove_char " " math_str = p +:+ String c q ->
           counted (last_char p) c = false)
    /\ (split_to_tokens math_str = Raise NothingToDoError
        \/ exists ts, split_to_tokens math_str = Return ts).
Proof.
  intros s Hnx. pose proof (split_to_tokens_Scans s) as Hs.
  split.
  - rewrite (Scans_nothing_to_do _ _ _ _ _ Hs Hnx).
    split.
    + intros [_ Hc] p c q Hp. specialize (Hc p c q Hp).
      unfold before in Hc. now destruct (last_char p).
    + intros Hc. split; [reflexivity|]. intros p c q Hp.
      specialize (Hc p c q Hp). unfold before. now destruct (last_char p).
  - destruct (Scans_result _ _ _ _ _ Hs) as [[ts Hts]|[Hn|[c Hc]]]; eauto.
    exfalso. exact (Hnx c Hc).
Qed.

Lemma split_to_tokens_nothing_to_do_witness :
  split_to_tokens "(-(12.5))" = Raise NothingToDoError
  /\ counted (Some "2"%char) "-" = true
  /\ exists ts, split_to_tokens "2-1" = Return ts.
Proof.
  split; [|split; [reflexivity|]].
  - assert (Hnx : forall x, split_to_tokens "(-(12.5))" <> Raise (UnexpectedInput x))
      by (intros x; vm_compute; discriminate).
    destruct (proj2 (split_to_tokens_nothing_to_do "(-(12.5))" Hnx))
      as [H|[ts H]]; [exact H | vm_compute in H; discriminate].
  - assert (Hnx : forall x, split_to_tokens "2-1" <> Raise (UnexpectedInput x))
      by (intros x; vm_compute; discriminate).
    destruct (proj2 (split_to_tokens_nothing_to_do "2-1" Hnx))
      as [H|H]; [vm_compute in H; discriminate | exact H].
Defined.

(** ** [check_parentheses] *)

Lemma check_loop_result (rest : list string) (o c : nat) :
  check_loop rest o c = Return tt \/ check_loop rest o c = Raise ParenthesesError.
Proof.
  revert o c. induction rest as [|t rest IH]; intros o c; simpl.
  - destruct (negb (o =? c)%nat); auto.
  - destruct (o <? c)%nat; [auto | apply IH].
Qed.

(** The loop accepts when the closed never exceed the opened before a
    token of the loop, and the two counts are equal at the end. *)
Lemma check_loop_accepts (rest : list string) (o c : nat) :
  check_loop rest o c = Return tt
  <-> (forall n, n < length rest ->
         c + count_token ")" (take n rest) <= o + count_token "(" (take n rest))
      /\ o + count_token "(" rest = c + count_token ")" rest.
Proof.
  revert o c. induction rest as [|t rest IH]; intros o c; simpl.
  - destruct (o =? c)%nat eqn:E; simpl.
    + apply Nat.eqb_eq in E. split; [|reflexivity].
      intros _. split; [intros n Hn; lia | lia].
    + apply Nat.eqb_neq in E. split; [discriminate|]. intros [_ H]. lia.
  - destruct (o <? c)%nat eqn:E.
    + apply Nat.ltb_lt in E. split; [discriminate|].
      intros [H _]. specialize (H 0 ltac:(lia)). simpl in H. lia.
    + apply Nat.ltb_ge in E. rewrite IH. split.
      * intros [H Ht]. split; [|lia].
        intros [|n] Hn; simpl; [lia|]. specialize (H n ltac:(lia)). lia.
      * intros [H Ht]. split; [|lia].
        intros n Hn. specialize (H (S n) ltac:(lia)). simpl in H. lia.
Qed.

(** X5: what [check_parentheses] accepts.  On two tokens or more it
    returns when the list holds as many ["("] as [")"] and, in every
    prefix of at least two tokens, no more [")"] than ["("]; otherwise it
    raises [ParenthesesError].  The prefix of one token is not tested. *)
Theorem check_parentheses_accepts :
  forall token_list,
    2 <= length token_list ->
    (check_parentheses token_list = Return tt
     <-> count_token "(" token_list = count_token ")" token_list
         /\ forall n, 2 <= n -> n < length token_list ->
              count_token ")" (take n token_list)
              <= count_token "(" (take n token_list))
    /\ (check_parentheses token_list = Return tt
        \/ check_parentheses token_list = Raise ParenthesesError).
Proof.
  intros [|t0 [|t1 rest]] Hlen; simpl in Hlen; try lia.
  unfold check_parentheses. cbn [item lookup list_lookup bind drop].
  change (drop 0 rest) with rest.
  split; [|apply check_loop_result].
  rewrite check_loop_accepts. simpl. split.
  - intros [H Ht]. split; [lia|].
    intros [|[|n]] H2 Hn; try lia. specialize (H n ltac:(lia)). simpl. lia.
  - intros [Ht H]. split; [|lia].
    intros n Hn. specialize (H (S (S n)) ltac:(lia) ltac:(lia)). simpl in H. lia.
Qed.

Lemma check_parentheses_accepts_witness :
  2 <= length ["("; "2"; "+"; "3"]
  /\ check_parentheses ["("; "2"; "+"; "3"] = Raise ParenthesesError
  /\ check_parentheses ["2"; "+"; "3"; ")"] = Raise ParenthesesError
  /\ check_parentheses ["("; "2"; ")"; "*"; "("; "3"; ")"] = Return tt.
Proof.
  split; [simpl; lia|]. split; [|split].
  - destruct (proj2 (check_parentheses_accepts ["("; "2"; "+"; "3"] ltac:(simpl; lia)))
      as [H|H]; [vm_compute in H; discriminate | exact H].
  - destruct (proj2 (check_parentheses_accepts ["2"; "+"; "3"; ")"] ltac:(simpl; lia)))
      as [H|H]; [vm_compute in H; discriminate | exact H].
  - apply (proj1 (check_parentheses_accepts ["("; "2"; ")"; "*"; "("; "3"; ")"]
                    ltac:(simpl; lia))).
    split; [reflexivity|].
    intros n H2 Hn. simpl in Hn.
    do 7 (destruct n as [|n]; [simpl; lia|]). lia.
Defined.

(** ** [infix_to_postfix]: what it keeps *)

Lemma count_token_app (x : string) (a b : list string) :
  count_token x (a ++ b) = count_token x a + count_token x b.
Proof. induction a as [|t a IH]; simpl; [reflexivity | rewrite IH; lia]. Qed.

Lemma pop_to_paren_split (stack out stack' out' : list string) :
  pop_to_paren stack out = Return (stack', out') ->
  exists sp,
    stack = sp ++ "(" :: stack' /\ out' = out ++ sp
    /\ count_token "(" sp = 0.
Proof.
  revert out. induction stack as [|top stack IH]; intros out; simpl;
    [discriminate|].
  destruct (String.eqb top "(") eqn:E.
  - intros [= <- <-]. apply String.eqb_eq in E. subst top.
    exists []. now rewrite app_nil_r.
  - intros H. destruct (IH _ H) as (sp & -> & -> & Hsp).
    exists (top :: sp). rewrite <- app_assoc. simpl. rewrite E, Hsp.
    repeat split.
Qed.

Lemma pop_higher_split (token : string) (stack out stack' out' : list string) :
  pop_higher token stack out = Return (stack', out') ->
  exists sp, stack = sp ++ stack' /\ out' = out ++ sp.
Proof.
  revert out. induction stack as [|top stack IH]; intros out; simpl.
  - intros [= <- <-]. exists []. split; [reflexivity | now rewrite app_nil_r].
  - destruct (prior top) as [p| |]; simpl; try discriminate.
    destruct (prior token) as [q| |]; simpl; try discriminate.
    destruct (prior_ge p q) as [[]| |]; simpl; try discriminate.
    + intros H. destruct (IH _ H) as (sp & -> & ->).
      exists (top :: sp). now rewrite <- app_assoc.
    + intros [= <- <-]. exists []. split; [reflexivity | now rewrite app_nil_r].
Qed.

Lemma is_number_not_paren (t : string) :
  is_number t = true -> String.eqb t "(" = false /\ String.eqb t ")" = false.
Proof.
  destruct t as [|c t]; [discriminate|]. intros H.
  exact (number_token_not_paren (String c t) H).
Qed.

Ltac tally :=
  rewrite ?count_token_app in *; cbn [count_token] in *;
  repeat match goal with
         | E : String.eqb _ _ = _ |- _ => rewrite E in *
         end;
  change (String.eqb "(" "(") with true in *;
  change (String.eqb ")" ")") with true in *;
  change (String.eqb "(" ")") with false in *;
  change (String.eqb ")" "(") with false in *;
  cbn [int] in *; lia.

(** The loop of the conversion moves tokens and drops matched
    parentheses, nothing else. *)
Lemma infix_loop_keeps (token_list : list string) :
  forall stack out res,
    infix_loop token_list stack out = Return res ->
    List.filter is_number stack = [] ->
    List.filter is_number res
    = List.filter is_number out ++ List.filter is_number token_list
    /\ (forall x, String.eqb "(" x = false -> String.eqb ")" x = false ->
          count_token x res
          = count_token x out + count_token x stack + count_token x token_list)
    /\ count_token ")" res = count_token ")" out + count_token ")" stack
    /\ count_token "(" res + count_token ")" token_list
       = count_token "(" out + count_token "(" stack + count_token "(" token_list.
Proof.
  induction token_list as [|t rest IH]; intros stack out res H Hst.
  - simpl in H. injection H as <-.
    rewrite List.filter_app, Hst. simpl.
    repeat split; intros; rewrite ?count_token_app; lia.
  - destruct t as [|c t]; [discriminate|].
    cbn [infix_loop index String.get bind] in H.
    destruct (isdigit c) eqn:Hd.
    + destruct (IH _ _ _ H Hst) as (Hnum & Hcnt & Hclose & Hopen).
      destruct (number_token_not_paren (String c t) Hd) as [E1 E2].
      split; [|split; [intros x Hx1 Hx2; specialize (Hcnt x Hx1 Hx2)|split]];
        [|tally..].
      rewrite Hnum, List.filter_app. cbn [List.filter is_number].
      rewrite Hd. now rewrite <- app_assoc.
    + assert (Hnn : is_number (String c t) = false) by exact Hd.
      destruct (String.eqb (String c t) "(") eqn:E1.
      * apply String.eqb_eq in E1. rewrite E1 in *.
        destruct (IH _ _ _ H) as (Hnum & Hcnt & Hclose & Hopen);
          [simpl; exact Hst|].
        split; [|split; [intros x Hx1 Hx2; specialize (Hcnt x Hx1 Hx2)|split]];
          [|tally..].
        rewrite Hnum. reflexivity.
      * destruct (String.eqb (String c t) ")") eqn:E2.
        -- destruct (pop_to_paren stack out) as [[stack' out']| |] eqn:Hpop;
             try discriminate.
           cbn [bind fst snd] in H.
           destruct (pop_to_paren_split _ _ _ _ Hpop) as (sp & -> & -> & Hsp).
           rewrite List.filter_app in Hst.
           apply app_eq_nil in Hst as [Hst1 Hst2]. simpl in Hst2.
           destruct (IH _ _ _ H Hst2) as (Hnum & Hcnt & Hclose & Hopen).
           apply String.eqb_eq in E2. rewrite E2 in *. clear E1.
           split; [|split; [intros x Hx1 Hx2; specialize (Hcnt x Hx1 Hx2)|split]];
             [|tally..].
           rewrite Hnum, List.filter_app, Hst1, app_nil_r. reflexivity.
        -- destruct (pop_higher (String c t) stack out) as [[stack' out']| |] eqn:Hpop;
             try discriminate.
           cbn [bind fst snd] in H.
           destruct (pop_higher_split _ _ _ _ _ Hpop) as (sp & -> & ->).
           rewrite List.filter_app in Hst.
           apply app_eq_nil in Hst as [Hst1 Hst2].
           destruct (IH _ _ _ H) as (Hnum & Hcnt & Hclose & Hopen).
           { cbn [List.filter]. rewrite Hnn. exact Hst2. }
           split; [|split; [intros x Hx1 Hx2; specialize (Hcnt x Hx1 Hx2)|split]];
             [|tally..].
           rewrite Hnum, List.filter_app, Hst1, app_nil_r.
           cbn [List.filter]. now rewrite Hnn.
Qed.

(** X6: what the conversion keeps.  When [infix_to_postfix] returns, the
    numbers stand in the output in the order of the input; every token
    that is no parenthesis occurs in the output as often as in the input;
    the output holds no [")"], and a ["("] only for each ["("] of the
    input that no [")"] closes, so the output is shorter than the input by
    two tokens for every [")"]. *)
Theorem infix_to_postfix_keeps_tokens :
  forall token_list output_list,
    infix_to_postfix token_list = Return output_list ->
    List.filter is_number output_list = List.filter is_number token_list
    /\ (forall x, x <> "(" -> x <> ")" ->
          count_token x output_list = count_token x token_list)
    /\ count_token ")" output_list = 0
    /\ count_token "(" output_list + count_token ")" token_list
       = count_token "(" token_list.
Proof.
  intros ts out H.
  destruct (infix_loop_keeps ts [] [] out H eq_refl) as (Hnum & Hcnt & Hclose & Hopen).
  split; [exact Hnum|]. split; [|split; [exact Hclose | exact Hopen]].
  intros x Hx1 Hx2. apply Hcnt; apply String.eqb_neq; congruence.
Qed.

Lemma infix_to_postfix_keeps_tokens_witness :
  List.filter is_number ["1"; "2"; "3"; "*"; "+"; "4"; "-"] = ["1"; "2"; "3"; "4"]
  /\ count_token "+" ["1"; "2"; "3"; "*"; "+"; "4"; "-"] = 1
  /\ count_token ")" ["1"; "2"; "3"; "*"; "+"; "4"; "-"] = 0.
Proof.
  destruct (infix_to_postfix_keeps_tokens
              ["("; "1"; "+"; "2"; "*"; "3"; ")"; "-"; "4"]
              ["1"; "2"; "3"; "*"; "+"; "4"; "-"] eq_refl)
    as (Hnum & Hcnt & Hclose & _).
  split; [exact Hnum|]. split; [|exact Hclose].
  apply (Hcnt "+"); discriminate.
Defined.

(** ** [infix_to_postfix] and [postfix_calc] on the tokens of a tree *)

Lemma tokens_balanced (e : expr) :
  wf e -> count_token "(" (tokens e) = count_token ")" (tokens e).
Proof.
  induction e as [lit|e IH|op l IHl r IHr|e IH]; simpl.
  - intros H. destruct (number_token_not_paren lit H) as [-> ->]. reflexivity.
  - intros [He _]. now apply IH.
  - intros (Hl & Hr & _). rewrite !count_token_app. simpl.
    rewrite (IHl Hl), (IHr Hr). now destruct op.
  - intros He. rewrite !count_token_app. simpl. rewrite (IH He). lia.
Qed.

(** X7: the conversion is right on every well-formed sequence: for the
    tokens of a tree in which binary operators group to the left, [*] [/]
    [:] bind tighter than [+] [-] and a unary minus holds one primary,
    [infix_to_postfix] returns the postfix order of that tree, operands
    first and the operator after them, without any parenthesis. *)
Theorem infix_to_postfix_of_tree :
  forall e,
    wf e ->
    infix_to_postfix (tokens e) = Return (postfix e)
    /\ count_token "(" (postfix e) = 0
    /\ count_token ")" (postfix e) = 0.
Proof.
  intros e Hwf. pose proof (infix_to_postfix_tokens e Hwf) as H.
  split; [exact H|].
  destruct (infix_to_postfix_keeps_tokens _ _ H) as (_ & _ & Hclose & Hopen).
  split; [|exact Hclose].
  pose proof (tokens_balanced e Hwf). lia.
Qed.

Lemma infix_to_postfix_of_tree_witness :
  infix_to_postfix ["("; "1"; "+"; "2"; ")"; "*"; "~"; "3"; "-"; "4"; "/"; "5"]
  = Return ["1"; "2"; "+"; "3"; "~"; "*"; "4"; "5"; "/"; "-"].
Proof.
  apply (infix_to_postfix_of_tree
           (Bin Sub (Bin Mul (Paren (Bin Add (Num "1") (Num "2"))) (Neg (Num "3")))
              (Bin Div (Num "4") (Num "5")))).
  simpl. repeat split; lia.
Defined.

(** X8: the postfix evaluation is the standard value: on the postfix
    order of a well-formed tree [postfix_calc] returns what the tree
    evaluates to, operands left to right and then the operator, with the
    failure of the first literal or operation that fails.  It returns the
    last value pushed without looking at the rest of the stack: after the
    postfix order of two trees the result is that of the second, the first
    being evaluated and left behind; and an operator that finds too few
    values, or an empty list, raises [IndexError]. *)
Theorem postfix_calc_of_tree :
  (forall e, wf e -> postfix_calc (postfix e) = eval e)
  /\ (forall e1 e2,
        wf e1 -> wf e2 ->
        postfix_calc (postfix e1 ++ postfix e2)
        = let* _ := eval e1 in eval e2)
  /\ (forall e op,
        wf e ->
        postfix_calc (postfix e ++ [symbol op])
        = let* _ := eval e in Raise IndexError)
  /\ postfix_calc [] = Raise IndexError.
Proof.
  split; [exact postfix_calc_postfix|]. split; [|split; [|reflexivity]].
  - intros e1 e2 H1 H2. unfold postfix_calc.
    rewrite (postfix_loop_postfix e1 H1).
    destruct (eval e1) as [v1|ex|]; try reflexivity. cbn [bind].
    rewrite <- (app_nil_r (postfix e2)), (postfix_loop_postfix e2 H2).
    now destruct (eval e2).
  - intros e op He. unfold postfix_calc.
    rewrite (postfix_loop_postfix e He).
    destruct (eval e) as [v|ex|]; try reflexivity. cbn [bind].
    now destruct op.
Qed.

Lemma postfix_calc_of_tree_witness :
  postfix_calc ["2"; "3"; "4"; "*"; "+"] = Return (PyInt 14)
  /\ postfix_calc ["2"; "3"; "4"; "+"] = Return (PyInt 7)
  /\ postfix_calc ["2"; "*"] = Raise IndexError.
Proof.
  destruct postfix_calc_of_tree as (Hval & Hleft & Hunder & _).
  split; [|split].
  - exact (Hval (Bin Add (Num "2") (Bin Mul (Num "3") (Num "4")))
             ltac:(simpl; repeat split; lia)).
  - exact (Hleft (Num "2") (Bin Add (Num "3") (Num "4"))
             ltac:(reflexivity) ltac:(simpl; repeat split; lia)).
  - exact (Hunder (Num "2") Mul ltac:(reflexivity)).
Defined.

(** ** Two expressions side by side *)

Lemma primary_pending (e : expr) :
  level e = 5%Z -> pending e = [] /\ emitted e = postfix e.
Proof.
  destruct e as [lit|e|op l r|e]; simpl; try discriminate; auto.
  destruct op; discriminate.
Qed.

(** X9: no implied multiplication.  When the tokens are those of a
    primary (a literal or a parenthesis) directly followed by those of a
    second well-formed expression, as in ["2(3+4)"], every stage accepts
    them and the result is the value of the second expression alone: the
    first is evaluated (its failure is raised) and its value left on the
    stack. *)
Theorem eval_math_expr_side_by_side :
  forall math_expr e1 e2,
    wf e1 -> wf e2 -> level e1 = 5%Z ->
    split_to_tokens math_expr = Return (tokens e1 ++ tokens e2) ->
    eval_math_expr math_expr = let* _ := eval e1 in eval e2.
Proof.
  intros s e1 e2 H1 H2 Hl Htok. unfold eval_math_expr. rewrite Htok. cbn [bind].
  destruct (primary_pending e1 Hl) as [Hp He].
  assert (Hchk : check_parentheses (tokens e1 ++ tokens e2) = Return tt).
  { apply check_parentheses_of_loop.
    - rewrite length_app. pose proof (proj1 (tokens_length e1)).
      pose proof (proj1 (tokens_length e2)). lia.
    - destruct (check_loop_tokens e1 H1 (tokens e2) 0 0 (le_n 0)) as [k1 Hk1].
      destruct (check_loop_tokens e2 H2 [] (0 + k1) (0 + k1) (le_n _)) as [k2 Hk2].
      rewrite app_nil_r in Hk2. rewrite Hk1, Hk2. simpl.
      now rewrite Nat.eqb_refl. }
  rewrite Hchk. cbn [bind].
  assert (Hconv : infix_to_postfix (tokens e1 ++ tokens e2)
                  = Return (postfix e1 ++ postfix e2)).
  { unfold infix_to_postfix.
    rewrite (infix_loop_tokens e1 H1 (tokens e2) [] [] I).
    rewrite Hp, He. simpl.
    rewrite <- (app_nil_r (tokens e2)).
    rewrite (infix_loop_tokens e2 H2 [] [] (postfix e1) I).
    simpl. now rewrite app_nil_r, <- app_assoc, emitted_pending. }
  rewrite Hconv. cbn [bind].
  unfold postfix_calc. rewrite (postfix_loop_postfix e1 H1).
  destruct (eval e1) as [v1|ex|]; try reflexivity. cbn [bind].
  rewrite <- (app_nil_r (postfix e2)), (postfix_loop_postfix e2 H2).
  now destruct (eval e2).
Qed.

Lemma eval_math_expr_side_by_side_witness :
  eval_math_expr "2(3+4)" = Return (PyInt 7)
  /\ eval_math_expr "(1/0)(3+4)" = Raise SystemExit.
Proof.
  split.
  - exact (eval_math_expr_side_by_side "2(3+4)" (Num "2")
             (Paren (Bin Add (Num "3") (Num "4")))
             ltac:(reflexivity) ltac:(simpl; repeat split; lia)
             eq_refl eq_refl).
  - exact (eval_math_expr_side_by_side "(1/0)(3+4)"
             (Paren (Bin Div (Num "1") (Num "0")))
             (Paren (Bin Add (Num "3") (Num "4")))
             ltac:(simpl; repeat split; lia) ltac:(simpl; repeat split; lia)
             eq_refl eq_refl).
Defined.

(** ** Integers stay exact *)




(** ** The validator and the conversion *)

(** X11: apart from a leading [")"], the validator protects the
    conversion: for every list of non-empty tokens that
    [check_parentheses] accepts and that does not start with [")"],
    [infix_to_postfix] never pops an empty stack (it does not raise
    [IndexError]). *)
Theorem accepted_tokens_convert_safely :
  forall token_list,
    Forall (fun t => t <> "") token_list ->
    check_parentheses token_list = Return tt ->
    (forall rest, token_list <> ")" :: rest) ->
    infix_to_postfix token_list <> Raise IndexError.
Proof. exact accepted_tokens_no_underflow. Qed.

Lemma accepted_tokens_convert_safely_witness :
  infix_to_postfix ["("; "1"; "+"; "2"; ")"; "*"; "("; "3"; ")"] <> Raise IndexError.
Proof.
  apply accepted_tokens_convert_safely.
  - repeat constructor; discriminate.
  - reflexivity.
  - intros rest. discriminate.
Defined.

(** ** What [eval_math_expr] can raise *)

(** The keys of the table with a priority: all but [")"]. *)
Lemma prior_of_key (k : string) :
  is_Some (operators_priors !! k) -> k <> ")" ->
  exists p, prior k = Return (Some p).
Proof.
  unfold prior, operators_priors.
  repeat (rewrite lookup_insert; case_decide;
          [subst; intros _ Hk; first [now contradiction Hk | eauto]|]).
  rewrite lookup_empty. intros [x Hx]. discriminate.
Qed.

Lemma pop_to_paren_IndexError (stack out : list string) (e : exn) :
  pop_to_paren stack out = Raise e -> e = IndexError.
Proof.
  revert out. induction stack as [|top stack IH]; intros out; simpl.
  - now intros [= <-].
  - destruct (String.eqb top "("); [discriminate | apply IH].
Qed.

Lemma pop_higher_returns (token : string) (q : Z) (stack out : list string) :
  prior token = Return (Some q) ->
  Forall (fun t => exists p, prior t = Return (Some p)) stack ->
  exists stack' out', pop_higher token stack out = Return (stack', out').
Proof.
  intros Hq Hst. revert out.
  induction Hst as [|top stack [p Hp] Hst IH]; intros out; simpl; [eauto|].
  rewrite Hp, Hq. simpl. destruct (q <=? p)%Z; [apply IH | eauto].
Qed.

(** On tokens of the tokenizer the conversion looks up keys only, and
    never the priority of [")"]: it can only fail by popping an empty
    stack. *)
Lemma infix_loop_IndexError (token_list : list string) :
  forall stack out e,
    Forall (fun t => literal t \/ operator_token t) token_list ->
    Forall (fun t => exists p, prior t = Return (Some p)) stack ->
    infix_loop token_list stack out = Raise e -> e = IndexError.
Proof.
  induction token_list as [|t rest IH]; intros stack out e Htok Hst H;
    [discriminate|].
  apply Forall_cons in Htok as [Ht Htok].
  destruct Ht as [(Hn & _)|(c & -> & Hd & Hk)].
  - rewrite (infix_loop_number t rest stack out Hn) in H.
    exact (IH _ _ _ Htok Hst H).
  - unfold chr in *.
    cbn [infix_loop index String.get bind] in H. rewrite Hd in H.
    destruct (String.eqb (String c "") "(") eqn:E1.
    + apply (IH _ _ _ Htok) in H; [exact H|].
      constructor; [|exact Hst]. apply String.eqb_eq in E1. rewrite E1.
      now exists 1%Z.
    + destruct (String.eqb (String c "") ")") eqn:E2.
      * destruct (pop_to_paren stack out) as [[stack' out']|ex|] eqn:Hpop;
          cbn [bind fst snd] in H.
        -- destruct (pop_to_paren_split _ _ _ _ Hpop) as (sp & -> & _).
           apply Forall_app in Hst as [_ Hst].
           apply Forall_cons in Hst as [_ Hst].
           exact (IH _ _ _ Htok Hst H).
        -- injection H as <-. exact (pop_to_paren_IndexError _ _ _ Hpop).
        -- discriminate.
      * apply String.eqb_neq in E2.
        destruct (prior_of_key (String c "") Hk E2) as [q Hq].
        destruct (pop_higher_returns _ q stack out Hq Hst)
          as (stack' & out' & Hpop).
        rewrite Hpop in H. cbn [bind fst snd] in H.
        destruct (pop_higher_split _ _ _ _ _ Hpop) as (sp & -> & _).
        apply Forall_app in Hst as [_ Hst].
        apply (IH _ _ _ Htok) in H; [exact H|].
        constructor; [eauto | exact Hst].
Qed.

(** X12: the outcomes of [eval_math_expr].  On every input it ends, and
    it either returns a number or raises one of seven exceptions:
    [NothingToDoError], [UnexpectedInput], [ParenthesesError],
    [IndexError], [ValueError], [OverflowError] or [SystemExit]; each of
    them does occur.  So it never raises [EmptyInputError], nor the
    [KeyError] and [TypeError] of a lookup in [operators_priors], nor a
    [ZeroDivisionError]. *)
Theorem eval_math_expr_outcomes :
  (forall math_expr,
      (exists res, eval_math_expr math_expr = Return res)
      \/ eval_math_expr math_expr = Raise NothingToDoError
      \/ (exists c, eval_math_expr math_expr = Raise (UnexpectedInput c))
      \/ eval_math_expr math_expr = Raise ParenthesesError
      \/ eval_math_expr math_expr = Raise IndexError
      \/ eval_math_expr math_expr = Raise ValueError
      \/ eval_math_expr math_expr = Raise OverflowError
      \/ eval_math_expr math_expr = Raise SystemExit)
  /\ eval_math_expr "1+1" = Return (PyInt 2)
  /\ eval_math_expr "(7)" = Raise NothingToDoError
  /\ eval_math_expr "7%2" = Raise (UnexpectedInput "%")
  /\ eval_math_expr "(2+3))" = Raise ParenthesesError
  /\ eval_math_expr "2*-3" = Raise IndexError
  /\ eval_math_expr "1..5+1" = Raise ValueError
  /\ eval_math_expr ("1" +:+ zeros 309 +:+ "*1.0") = Raise OverflowError
  /\ eval_math_expr "1/(2-2)" = Raise SystemExit.
Proof.
  split; [|repeat split; vm_compute; reflexivity].
  intros s. unfold eval_math_expr.
  pose proof (split_to_tokens_raises s) as Htok.
  destruct (split_to_tokens s) as [ts|e|] eqn:Es; simpl in Htok;
    [|destruct Htok as [->|[c ->]]; simpl; eauto 10 | contradiction].
  cbn [bind].
  pose proof (check_parentheses_raises ts) as Hchk.
  destruct (check_parentheses ts) as [[]|e|]; simpl in Hchk;
    [|destruct Hchk as [->| ->]; simpl; eauto 10 | contradiction].
  cbn [bind].
  pose proof (infix_to_postfix_raises ts) as Hconv.
  destruct (infix_to_postfix ts) as [post|e|] eqn:Ec; simpl in Hconv;
    [| |contradiction].
  - cbn [bind]. pose proof (postfix_calc_raises post) as Hev.
    destruct (postfix_calc post) as [res|e|]; simpl in Hev;
      [eauto | | contradiction].
    destruct Hev as [->|[->|[->| ->]]]; eauto 10.
  - cbn [bind].
    destruct (split_to_tokens_spells_text s ts Es) as (Hok & _).
    rewrite (infix_loop_IndexError ts [] [] e Hok (List.Forall_nil _) Ec).
    eauto 10.
Qed.

(** ** The command loop *)




(** ** The sign ["~"] typed for a unary minus *)

Lemma render_tilde_last (e : expr) :
  literals_scanned e ->
  render_tilde e <> ""
  /\ unary_position (last_char (render_tilde e)) = false.
Proof.
  induction e as [lit|e IH|op l IHl r IHr|e IH]; intros Hw; simpl in Hw.
  - destruct Hw as (Hn & Hall & _). simpl render_tilde.
    split; [now destruct lit|].
    destruct (last_char lit) as [c|] eqn:El.
    + pose proof (all_last_char _ _ _ Hall El) as Hc. simpl.
      destruct (Ascii.eqb c "(") eqn:E; [|reflexivity].
      apply Ascii.eqb_eq in E. subst c. discriminate.
    + apply last_char_None in El. subst lit. contradiction.
  - destruct (IH Hw) as [Hne Hu].
    change (render_tilde (Neg e)) with ("~" +:+ render_tilde e).
    split; [discriminate|]. now rewrite last_char_app.
  - destruct Hw as [_ Hr]. destruct (IHr Hr) as [Hne Hu].
    assert (Hne' : symbol op +:+ render_tilde r <> "") by now destruct op.
    change (render_tilde (Bin op l r))
      with (render_tilde l +:+ symbol op +:+ render_tilde r).
    split.
    + destruct (render_tilde l); [exact Hne' | discriminate].
    + rewrite last_char_app by exact Hne'. now rewrite last_char_app.
  - change (render_tilde (Paren e)) with ("(" +:+ (render_tilde e +:+ ")")).
    split; [discriminate|].
    rewrite last_char_app by (apply append_not_empty; discriminate).
    now rewrite last_char_app by discriminate.
Qed.

(** The scan of a text with ["~"] appends the tokens of the expression and
    counts its binary operators and its negations. *)
Lemma Scans_render_tilde (e : expr) :
  forall prev rest token_list operators r,
    literals_scanned e ->
    ends_text rest ->
    Scans (last_char (render_tilde e)) rest (token_list ++ tokens e)
      (operators + (binops e + negations e)) r ->
    Scans prev (render_tilde e +:+ rest) token_list operators r.
Proof.
  induction e as [lit|e IH|op l IHl r0 IHr|e IH];
    intros prev rest tl ops r Hw Hrest Hrun.
  - simpl in Hw. pose proof Hw as (Hn & _).
    destruct lit as [|c lit]; [contradiction|]. simpl in Hn.
    change (render_tilde (Num (String c lit)) +:+ rest)
      with (String c (lit +:+ rest)).
    apply (Scans_number _ _ _ _ _ (String c lit)); [exact Hn| |].
    + symmetry. exact (literal_scanned (String c lit) rest Hw Hrest).
    + change (String c (lit +:+ rest)) with (String c lit +:+ rest).
      rewrite slice_from_app.
      change (binops (Num (String c lit)) + negations (Num (String c lit)))
        with 0 in Hrun.
      now rewrite Nat.add_0_r in Hrun.
  - simpl in Hw. destruct (render_tilde_last e Hw) as [Hne _].
    change (render_tilde (Neg e) +:+ rest)
      with (String "~" (render_tilde e +:+ rest)).
    apply Scans_operator; [reflexivity | now eexists | reflexivity |].
    match goal with |- Scans _ _ _ ?n _ => change n with (ops + 1) end.
    apply IH; [exact Hw | exact Hrest |].
    change (render_tilde (Neg e)) with ("~" +:+ render_tilde e) in Hrun.
    change (tokens (Neg e)) with (["~"] ++ tokens e) in Hrun.
    change (binops (Neg e)) with (binops e) in Hrun.
    change (negations (Neg e)) with (1 + negations e) in Hrun.
    rewrite last_char_app in Hrun by exact Hne.
    rewrite <- app_assoc.
    now replace (ops + 1 + (binops e + negations e))
      with (ops + (binops e + (1 + negations e))) by lia.
  - simpl in Hw. destruct Hw as [Hl Hr].
    destruct (render_tilde_last l Hl) as [Hnl Hul].
    destruct (render_tilde_last r0 Hr) as [Hnr Hur].
    assert (Hs : symbol op = chr (symbol_char op)) by now destruct op.
    change (render_tilde (Bin op l r0))
      with (render_tilde l +:+ symbol op +:+ render_tilde r0) in *.
    change (tokens (Bin op l r0)) with (tokens l ++ [symbol op] ++ tokens r0) in Hrun.
    change (binops (Bin op l r0)) with (binops l + 1 + binops r0) in Hrun.
    change (negations (Bin op l r0)) with (negations l + negations r0) in Hrun.
    rewrite !append_assoc, Hs. rewrite Hs in Hrun.
    apply IHl; [exact Hl | now destruct op |].
    change (chr (symbol_char op) +:+ render_tilde r0 +:+ rest)
      with (String (symbol_char op) (render_tilde r0 +:+ rest)).
    apply Scans_operator.
    + now destruct op.
    + destruct op; now eexists.
    + rewrite Hul. apply andb_false_r.
    + replace (negb (Ascii.eqb (symbol_char op) "(" || Ascii.eqb (symbol_char op) ")"))
        with true by now destruct op.
      apply IHr; [exact Hr | exact Hrest |].
      rewrite last_char_app in Hrun by (apply append_not_empty; exact Hnr).
      rewrite last_char_app in Hrun by exact Hnr.
      rewrite <- !app_assoc.
      now replace (ops + (binops l + negations l) + 1 + (binops r0 + negations r0))
        with (ops + (binops l + 1 + binops r0 + (negations l + negations r0)))
        by lia.
  - simpl in Hw. destruct (render_tilde_last e Hw) as [Hne Hue].
    change (render_tilde (Paren e)) with ("(" +:+ (render_tilde e +:+ ")")) in *.
    change (tokens (Paren e)) with (["("] ++ tokens e ++ [")"]) in Hrun.
    change (binops (Paren e)) with (binops e) in Hrun.
    change (negations (Paren e)) with (negations e) in Hrun.
    rewrite last_char_app in Hrun by (apply append_not_empty; discriminate).
    rewrite last_char_app in Hrun by discriminate.
    change (("(" +:+ render_tilde e +:+ ")") +:+ rest)
      with (String "(" ((render_tilde e +:+ ")") +:+ rest)).
    rewrite append_assoc.
    apply Scans_operator; [reflexivity | now eexists | reflexivity |].
    cbn [negb Ascii.eqb orb].
    apply IH; [exact Hw | split; reflexivity |].
    change (")" +:+ rest) with (String ")" rest).
    apply Scans_operator; [reflexivity | now eexists | reflexivity |].
    rewrite <- !app_assoc. exact Hrun.
Qed.

(** X14: ["~"] typed for the unary minus works in every place.  When the
    input without its spaces is the text of a well-formed expression whose
    unary minus signs are all written ["~"], and the expression has at
    least one binary operator or one negation, the tokenizer returns the
    tokens of the expression and [eval_math_expr] gives its standard
    value: unlike [-], a ["~"] is counted as an operator and is read as a
    negation also after an operator, as in ["2*~3"] or ["~5"]. *)
Theorem eval_math_expr_tilde :
  forall math_expr e,
    wf e -> literals_scanned e -> 1 <= binops e + negations e ->
    remove_char " " math_expr = render_tilde e ->
    split_to_tokens math_expr = Return (tokens e)
    /\ eval_math_expr math_expr = eval e.
Proof.
  intros s e Hwf Hw Hb Hs.
  assert (Htok : split_to_tokens s = Return (tokens e)).
  { apply split_to_tokens_run. rewrite Hs.
    rewrite <- (append_nil_r (render_tilde e)).
    apply (Scans_render_tilde e); [exact Hw | exact I |].
    simpl.
    pose proof (Scans_end (last_char (render_tilde e)) (tokens e)
                  (binops e + negations e)) as H.
    destruct (binops e + negations e); [lia | exact H]. }
  split; [exact Htok | now apply eval_math_expr_tokens].
Qed.

Lemma eval_math_expr_tilde_witness :
  eval_math_expr "~5" = Return (PyInt (-5))
  /\ eval_math_expr "2 * ~(3 - 10)" = Return (PyInt 14).
Proof.
  split.
  - apply (eval_math_expr_tilde "~5" (Neg (Num "5"))).
    + simpl. repeat split; lia.
    + simpl. unfold literal. simpl. repeat split; lia.
    + simpl. lia.
    + reflexivity.
  - apply (eval_math_expr_tilde "2 * ~(3 - 10)"
             (Bin Mul (Num "2") (Neg (Paren (Bin Sub (Num "3") (Num "10")))))).
    + simpl. repeat split; lia.
    + simpl. unfold literal. simpl. repeat split; lia.
    + simpl. lia.
    + reflexivity.
Defined.

(** ** The tokenizer on the text of an expression *)

(** X15: writing an expression and scanning it gives its tokens back.
    When the input without its spaces is the text of an expression whose
    literals are literals of the scanner and whose unary minus signs stand
    at the start or right after a ["("], the tokenizer cuts the text
    exactly into the tokens of the expression, each [-] read as the tree
    says (["~"] for a negation, ["-"] for a subtraction); it returns them
    when the expression has a binary operator and raises
    [NothingToDoError] when it has none. *)
Theorem split_to_tokens_of_text :
  forall math_str e,
    written true e ->
    remove_char " " math_str = render e ->
    (1 <= binops e -> split_to_tokens math_str = Return (tokens e))
    /\ (binops e = 0 -> split_to_tokens math_str = Raise NothingToDoError).
Proof.
  intros s e Hw Hs.
  assert (Hrun : forall r,
             Scans (last_char (render e)) "" (tokens e) (binops e) r ->
             Scans None (render e) [] 0 r).
  { intros r Hr. rewrite <- (append_nil_r (render e)).
    apply (Scans_render e true); [exact Hw | reflexivity | exact I | exact Hr]. }
  pose proof (Hrun _ (Scans_end (last_char (render e)) (tokens e) (binops e))) as H.
  assert (Hres : split_to_tokens s
                 = if (binops e =? 0)%nat then Raise NothingToDoError
                   else Return (tokens e)).
  { apply split_to_tokens_run. now rewrite Hs. }
  split.
  - intros Hb. rewrite Hres. now destruct (binops e); [lia|].
  - intros Hb. rewrite Hres, Hb. reflexivity.
Qed.

Lemma split_to_tokens_of_text_witness :
  split_to_tokens "-(1.5 - 2)*3" = Return ["~"; "("; "1.5"; "-"; "2"; ")"; "*"; "3"]
  /\ split_to_tokens "(-(42))" = Raise NothingToDoError.
Proof.
  split.
  - apply (split_to_tokens_of_text "-(1.5 - 2)*3"
             (Bin Mul (Neg (Paren (Bin Sub (Num "1.5") (Num "2")))) (Num "3"))).
    + simpl. unfold literal. simpl. repeat split; lia.
    + reflexivity.
    + simpl. lia.
  - apply (split_to_tokens_of_text "(-(42))" (Paren (Neg (Paren (Num "42"))))).
    + simpl. unfold literal. simpl. repeat split; lia.
    + reflexivity.
    + reflexivity.
Defined.

(** ** The two signs of division *)

Lemma slash_token_other (t : string) : t <> ":" -> slash_token t = t.
Proof.
  intros H. unfold slash_token. now destruct (String.eqb_spec t ":").
Qed.

Lemma slash_token_eqb (t k : string) :
  k <> ":" -> k <> "/" -> String.eqb (slash_token t) k = String.eqb t k.
Proof.
  intros H1 H2. unfold slash_token.
  destruct (String.eqb_spec t ":") as [->|]; [|reflexivity].
  destruct (String.eqb_spec "/" k), (String.eqb_spec ":" k); congruence.
Qed.

Lemma remove_char_colon_to_slash (s : string) :
  remove_char " " (colon_to_slash s) = colon_to_slash (remove_char " " s).
Proof.
  induction s as [|c s IH]; [reflexivity|]. simpl.
  destruct (Ascii.eqb_spec c ":") as [->|Hc]; simpl.
  - now rewrite IH.
  - destruct (Ascii.eqb c " "); simpl; [exact IH|].
    destruct (Ascii.eqb_spec c ":"); [contradiction|]. now rewrite IH.
Qed.

Lemma get_number_loop_colon_to_slash (rest acc : string) (dots : nat) :
  get_number_loop (colon_to_slash rest) acc dots = get_number_loop rest acc dots.
Proof.
  revert acc dots. induction rest as [|c rest IH]; intros acc dots;
    [reflexivity|].
  cbn [colon_to_slash get_number_loop].
  destruct (Ascii.eqb_spec c ":") as [->|Hc]; [reflexivity|].
  destruct (isdigit c); [apply IH|].
  destruct (Ascii.eqb c "." && (dots <? 2)%nat); [apply IH | reflexivity].
Qed.

Lemma slice_from_colon_to_slash (n : nat) (s : string) :
  slice_from n (colon_to_slash s) = colon_to_slash (slice_from n s).
Proof.
  revert s. induction n as [|n IH]; intros [|c s]; try reflexivity.
  simpl. apply IH.
Qed.

(** The scan of the rewritten text goes as the scan of the text, token by
    token. *)
Lemma Scans_colon_to_slash prev rest token_list operators r :
  Scans prev rest token_list operators r ->
  forall prev',
    unary_position prev' = unary_position prev ->
    Scans prev' (colon_to_slash rest) (map slash_token token_list) operators
      (let* ts := r in Return (map slash_token ts)).
Proof.
  induction 1 as [prev tl ops | prev c rest tl ops num r Hd Hnum _ IH
                 | prev rest tl ops r Hu _ IH
                 | prev c rest tl ops r Hd Hk Hm _ IH
                 | prev c rest tl ops Hd Hk]; intros prev' Hp.
  - cbn [colon_to_slash].
    pose proof (Scans_end prev' (map slash_token tl) ops) as S.
    destruct (ops =? 0)%nat; exact S.
  - assert (Hc : Ascii.eqb c ":" = false).
    { destruct (Ascii.eqb_spec c ":") as [->|]; [discriminate | reflexivity]. }
    assert (Hn : slash_token num = num).
    { apply slash_token_other. rewrite Hnum, get_number_loop_cons, Hd.
      intros [= E _]. subst c. discriminate. }
    specialize (IH (last_char num) eq_refl).
    rewrite map_app in IH. cbn [map] in IH. rewrite Hn in IH.
    rewrite <- slice_from_colon_to_slash in IH.
    cbn [colon_to_slash] in *. rewrite Hc in *.
    eapply Scans_number; [exact Hd | | exact IH].
    pose proof (get_number_loop_colon_to_slash (String c rest) "" 0) as G.
    cbn [colon_to_slash] in G. rewrite Hc in G. now rewrite G.
  - specialize (IH (Some "-"%char) eq_refl).
    rewrite map_app in IH.
    apply Scans_unary; [congruence | exact IH].
  - specialize (IH (Some (if Ascii.eqb c ":" then "/"%char else c))).
    rewrite map_app in IH. cbn [colon_to_slash].
    destruct (Ascii.eqb_spec c ":") as [->|Hc].
    + apply Scans_operator; [reflexivity | vm_compute; eauto | reflexivity |].
      apply IH. reflexivity.
    + cbn [map] in IH. rewrite slash_token_other in IH.
      2:{ unfold chr. intros [= E]. contradiction. }
      apply Scans_operator; [exact Hd | exact Hk | now rewrite Hp |].
      apply IH. reflexivity.
  - cbn [colon_to_slash bind].
    destruct (Ascii.eqb_spec c ":") as [->|Hc]; [discriminate Hk|].
    now apply Scans_unexpected.
Qed.

Lemma split_to_tokens_colon_to_slash (math_str : string) :
  split_to_tokens (colon_to_slash math_str)
  = let* ts := split_to_tokens math_str in Return (map slash_token ts).
Proof.
  apply split_to_tokens_run. rewrite remove_char_colon_to_slash.
  exact (Scans_colon_to_slash _ _ _ _ _ (split_to_tokens_Scans math_str)
           None eq_refl).
Qed.

Lemma check_loop_slash (token_list : list string) (o c : nat) :
  check_loop (map slash_token token_list) o c = check_loop token_list o c.
Proof.
  revert o c. induction token_list as [|t rest IH]; intros o c;
    [reflexivity|].
  cbn [map check_loop]. rewrite !slash_token_eqb by discriminate.
  now rewrite IH.
Qed.

Lemma check_parentheses_slash (token_list : list string) :
  check_parentheses (map slash_token token_list) = check_parentheses token_list.
Proof.
  destruct token_list as [|t0 [|t1 rest]]; try reflexivity.
  unfold check_parentheses, item. cbn [map lookup list_lookup bind drop].
  rewrite !slash_token_eqb by discriminate. apply check_loop_slash.
Qed.

Lemma prior_slash (t : string) : prior (slash_token t) = prior t.
Proof.
  unfold slash_token. now destruct (String.eqb_spec t ":") as [->|].
Qed.

Lemma pop_to_paren_slash (stack out : list string) :
  pop_to_paren (map slash_token stack) (map slash_token out)
  = let* so := pop_to_paren stack out in
    Return (map slash_token (fst so), map slash_token (snd so)).
Proof.
  revert out. induction stack as [|top stack IH]; intros out; [reflexivity|].
  cbn [map pop_to_paren]. rewrite slash_token_eqb by discriminate.
  destruct (String.eqb top "("); [reflexivity|].
  rewrite <- IH, map_app. reflexivity.
Qed.

Lemma pop_higher_slash (token : string) (stack out : list string) :
  pop_higher (slash_token token) (map slash_token stack) (map slash_token out)
  = let* so := pop_higher token stack out in
    Return (map slash_token (fst so), map slash_token (snd so)).
Proof.
  revert out. induction stack as [|top stack IH]; intros out; [reflexivity|].
  cbn [map pop_higher]. rewrite !prior_slash.
  destruct (prior top) as [p| |]; try reflexivity. cbn [bind].
  destruct (prior token) as [q| |]; try reflexivity. cbn [bind].
  destruct (prior_ge p q) as [[]| |]; try reflexivity; cbn [bind].
  rewrite <- IH, map_app. reflexivity.
Qed.

Lemma infix_loop_slash (token_list : list string) :
  forall stack out,
    infix_loop (map slash_token token_list)
      (map slash_token stack) (map slash_token out)
    = let* r := infix_loop token_list stack out in Return (map slash_token r).
Proof.
  induction token_list as [|t rest IH]; intros stack out.
  - cbn [map infix_loop bind]. now rewrite map_app.
  - cbn [map]. destruct (String.eqb_spec t ":") as [->|Ht].
    + change (slash_token ":") with "/".
      cbn [infix_loop index String.get bind].
      change (isdigit "/") with false. change (isdigit ":") with false.
      cbn [String.eqb Ascii.eqb Bool.eqb].
      rewrite (pop_higher_slash ":" stack out : pop_higher "/" _ _ = _).
      destruct (pop_higher ":" stack out) as [[st' out']| |]; try reflexivity.
      cbn [bind fst snd]. exact (IH (":" :: st') out').
    + rewrite (slash_token_other t Ht). cbn [infix_loop].
      destruct (index t 0) as [c| |]; try reflexivity. cbn [bind].
      destruct (isdigit c).
      { rewrite <- IH, map_app. cbn [map]. now rewrite (slash_token_other t Ht). }
      destruct (String.eqb t "(").
      { rewrite <- IH. cbn [map]. now rewrite (slash_token_other t Ht). }
      destruct (String.eqb t ")").
      * rewrite pop_to_paren_slash.
        destruct (pop_to_paren stack out) as [[st' out']| |]; try reflexivity.
        cbn [bind fst snd]. apply IH.
      * rewrite <- (slash_token_other t Ht) at 1. rewrite pop_higher_slash.
        destruct (pop_higher t stack out) as [[st' out']| |]; try reflexivity.
        cbn [bind fst snd]. rewrite <- IH. cbn [map].
        now rewrite (slash_token_other t Ht).
Qed.

Lemma math_operation_slash (a b : number) (t : string) :
  math_operation a b (slash_token t) = math_operation a b t.
Proof.
  unfold slash_token. now destruct (String.eqb_spec t ":") as [->|].
Qed.

Lemma postfix_loop_slash (postfix_list : list string) :
  forall stack,
    postfix_loop (map slash_token postfix_list) stack
    = postfix_loop postfix_list stack.
Proof.
  induction postfix_list as [|t rest IH]; intros stack; [reflexivity|].
  cbn [map]. destruct (String.eqb_spec t ":") as [->|Ht].
  - change (slash_token ":") with "/".
    cbn [postfix_loop index String.get bind].
    change (isdigit "/") with false. change (isdigit ":") with false.
    cbn [String.eqb Ascii.eqb Bool.eqb].
    destruct stack as [|arg2 [|arg1 stack]]; try reflexivity.
    change (math_operation arg1 arg2 "/") with (math_operation arg1 arg2 ":").
    destruct (math_operation arg1 arg2 ":"); try reflexivity. apply IH.
  - rewrite (slash_token_other t Ht). cbn [postfix_loop].
    destruct (index t 0) as [c| |]; try reflexivity. cbn [bind].
    destruct (isdigit c).
    { destruct (cast_number t); try reflexivity. apply IH. }
    destruct (String.eqb t "~").
    { destruct stack as [|arg2 stack]; try reflexivity.
      destruct (math_operation (PyInt 0) arg2 t); try reflexivity. apply IH. }
    destruct stack as [|arg2 [|arg1 stack]]; try reflexivity.
    destruct (math_operation arg1 arg2 t); try reflexivity. apply IH.
Qed.

(** X16: [":"] and ["/"] are one operator.  Writing ["/"] for every
    [":"] of the input changes the tokens by that sign only, and changes
    neither the result nor the exception of [eval_math_expr]; so two
    inputs that differ only in the sign chosen for their divisions give
    the same result. *)
Theorem eval_math_expr_colon_is_slash :
  (forall math_expr,
      split_to_tokens (colon_to_slash math_expr)
      = let* ts := split_to_tokens math_expr in Return (map slash_token ts))
  /\ (forall math_expr,
        eval_math_expr (colon_to_slash math_expr) = eval_math_expr math_expr)
  /\ (forall s1 s2,
        colon_to_slash s1 = colon_to_slash s2 ->
        eval_math_expr s1 = eval_math_expr s2).
Proof.
  assert (H : forall math_expr,
             eval_math_expr (colon_to_slash math_expr) = eval_math_expr math_expr).
  { intros math_expr. unfold eval_math_expr.
    rewrite split_to_tokens_colon_to_slash.
    destruct (split_to_tokens math_expr) as [ts| |]; try reflexivity.
    cbn [bind]. rewrite check_parentheses_slash.
    destruct (check_parentheses ts); try reflexivity. cbn [bind].
    unfold infix_to_postfix.
    pose proof (infix_loop_slash ts [] []) as G. cbn [map] in G. rewrite G.
    destruct (infix_loop ts [] []) as [out| |]; try reflexivity.
    cbn [bind]. apply postfix_loop_slash. }
  split; [exact split_to_tokens_colon_to_slash|].
  split; [exact H|].
  intros s1 s2 E. now rewrite <- (H s1), <- (H s2), E.
Qed.

Lemma eval_math_expr_colon_is_slash_witness :
  colon_to_slash "8:4/2" = colon_to_slash "8/4:2"
  /\ eval_math_expr "8:4/2" = eval_math_expr "8/4:2".
Proof.
  split; [reflexivity|].
  exact (proj2 (proj2 eval_math_expr_colon_is_slash) "8:4/2" "8/4:2" eq_refl).
Defined.

(** ** Spaces *)

Lemma remove_char_idempotent (old : ascii) (s : string) :
  remove_char old (remove_char old s) = remove_char old s.
Proof. apply remove_char_id, remove_char_absent. Qed.

(** X17: spaces are dropped before anything is scanned, so they count
    nowhere, not even inside a number: two inputs that are equal without
    their spaces give the same tokens and the same result or exception; a
    space put anywhere in an input changes nothing, and digits that a
    space separates are read as one number. *)
Theorem eval_math_expr_ignores_spaces :
  (forall s1 s2,
      remove_char " " s1 = remove_char " " s2 ->
      split_to_tokens s1 = split_to_tokens s2
      /\ eval_math_expr s1 = eval_math_expr s2)
  /\ (forall a b,
        eval_math_expr (a +:+ " " +:+ b) = eval_math_expr (a +:+ b))
  /\ (forall s, eval_math_expr (remove_char " " s) = eval_math_expr s)
  /\ split_to_tokens "1 2 + 3" = Return ["12"; "+"; "3"].
Proof.
  assert (H : forall s1 s2,
             remove_char " " s1 = remove_char " " s2 ->
             split_to_tokens s1 = split_to_tokens s2
             /\ eval_math_expr s1 = eval_math_expr s2).
  { intros s1 s2 E.
    assert (Hs : split_to_tokens s1 = split_to_tokens s2)
      by (unfold split_to_tokens; now rewrite E).
    split; [exact Hs|]. unfold eval_math_expr. now rewrite Hs. }
  split; [exact H|]. split; [|split].
  - intros a b. apply H. rewrite !remove_char_app. reflexivity.
  - intros s. apply H, remove_char_idempotent.
  - reflexivity.
Qed.

Lemma eval_math_expr_ignores_spaces_witness :
  remove_char " " "( 1 + 2 ) * 3" = remove_char " " "(1+2)*3"
  /\ eval_math_expr "( 1 + 2 ) * 3" = eval_math_expr "(1+2)*3".
Proof.
  split; [reflexivity|].
  exact (proj2 (proj1 eval_math_expr_ignores_spaces
                  "( 1 + 2 ) * 3" "(1+2)*3" eq_refl)).
Defined.

(** ** Neighbouring tokens *)

Lemma Scans_adjacent prev rest token_list operators r :
  Scans prev rest token_list operators r ->
  forall ts,
    r = Return ts ->
    exists tr,
      ts = token_list ++ tr
      /\ adjacent_numbers tr = false
      /\ (stops_number rest ->
          match tr with
          | b :: _ => is_number b = false
          | [] => True
          end).
Proof.
  induction 1 as [prev tl ops | prev c rest tl ops num r Hd Hnum _ IH
                 | prev rest tl ops r Hu _ IH
                 | prev c rest tl ops r Hd Hk Hm _ IH
                 | prev c rest tl ops Hd Hk]; intros ts Hr.
  - destruct (ops =? 0)%nat; [discriminate|]. injection Hr as <-.
    exists []. now rewrite List.app_nil_r.
  - destruct (IH ts Hr) as (tr & -> & Hadj & Hhead).
    exists (num :: tr). rewrite <- List.app_assoc. split; [reflexivity|].
    assert (Hstop : stops_number
                      (slice_from (String.length num) (String c rest))).
    { pose proof (get_number_loop_maximal (String c rest) 0 (Nat.le_0_l 2)) as M.
      rewrite <- Hnum in M. unfold stops_number.
      destruct (slice_from (String.length num) (String c rest));
        [exact I | exact (proj1 M)]. }
    specialize (Hhead Hstop). split.
    + cbn [adjacent_numbers]. rewrite Hadj.
      destruct tr as [|b tr]; [reflexivity|]. rewrite Hhead.
      now rewrite andb_false_r.
    + intros Hs. simpl in Hs. congruence.
  - destruct (IH ts Hr) as (tr & -> & Hadj & _).
    exists ("~" :: tr). rewrite <- List.app_assoc. split; [reflexivity|].
    split; [|reflexivity].
    cbn [adjacent_numbers]. rewrite Hadj. now destruct tr.
  - destruct (IH ts Hr) as (tr & -> & Hadj & _).
    exists (chr c :: tr). rewrite <- List.app_assoc. split; [reflexivity|].
    split; [|intros _; exact Hd].
    cbn [adjacent_numbers]. rewrite Hadj.
    change (is_number (chr c)) with (isdigit c). rewrite Hd.
    now destruct tr.
  - discriminate.
Qed.

(** X18: a number is taken whole.  In the tokens that [split_to_tokens]
    returns no two neighbours are both numbers: after a number comes an
    operator or a parenthesis, never the rest of the same digits. *)
Theorem split_to_tokens_numbers_apart :
  forall math_str ts,
    split_to_tokens math_str = Return ts ->
    adjacent_numbers ts = false.
Proof.
  intros math_str ts H.
  destruct (Scans_adjacent _ _ _ _ _ (split_to_tokens_Scans math_str) ts H)
    as (tr & -> & Hadj & _).
  exact Hadj.
Qed.

Lemma split_to_tokens_numbers_apart_witness :
  split_to_tokens "1.2.3+45" = Return ["1.2.3"; "+"; "45"]
  /\ adjacent_numbers ["1.2.3"; "+"; "45"] = false.
Proof.
  split; [reflexivity|].
  exact (split_to_tokens_numbers_apart "1.2.3+45" _ eq_refl).
Defined.

(** ** When the conversion pops an empty stack *)

Lemma pop_to_paren_underflow (stack out : list string) :
  open_on stack = 0 -> pop_to_paren stack out = Raise IndexError.
Proof.
  revert out. induction stack as [|top stack IH]; intros out; [reflexivity|].
  cbn [open_on pop_to_paren].
  destruct (String.eqb top "("); cbn [int]; [lia|]. intros H. now apply IH.
Qed.

Lemma take_cons_exists (t : string) (rest : list string) (k : nat) :
  (exists n, k + count_token "(" (take n (t :: rest))
             < count_token ")" (take n (t :: rest)))
  <-> exists m, k + int (String.eqb t "(") + count_token "(" (take m rest)
                < int (String.eqb t ")") + count_token ")" (take m rest).
Proof.
  split.
  - intros [[|n] H]; cbn [take count_token] in H; [lia|]. exists n. lia.
  - intros [m H]. exists (S m). cbn [take count_token]. lia.
Qed.

(** The conversion fails exactly when some [")"] finds no ["("] on the
    stack, the stack holding one ["("] for each one read and not yet
    closed. *)
Lemma infix_loop_underflow (token_list : list string) :
  forall stack out,
    Forall (fun t => literal t \/ operator_token t) token_list ->
    Forall (fun t => exists p, prior t = Return (Some p)) stack ->
    (infix_loop token_list stack out = Raise IndexError
     <-> exists n, open_on stack + count_token "(" (take n token_list)
                   < count_token ")" (take n token_list))
    /\ (infix_loop token_list stack out = Raise IndexError
        \/ exists r, infix_loop token_list stack out = Return r).
Proof.
  induction token_list as [|t rest IH]; intros stack out Htok Hst.
  - split; [|right; cbn [infix_loop]; eauto].
    split; [discriminate|]. intros [n H]. rewrite take_nil in H.
    cbn [count_token] in H. lia.
  - apply Forall_cons in Htok as [Ht Htok]. rewrite take_cons_exists.
    destruct Ht as [(Hn & _)|(c & -> & Hd & Hk)].
    + rewrite (infix_loop_number t rest stack out Hn).
      destruct (number_token_not_paren t Hn) as [E1 E2]. rewrite E1, E2.
      destruct (IH stack (out ++ [t]) Htok Hst) as [Hiff Hres].
      split; [|exact Hres]. rewrite Hiff.
      split; intros [m H]; exists m; cbn [int] in *; lia.
    + unfold chr in *. cbn [infix_loop index String.get bind]. rewrite Hd.
      destruct (String.eqb (String c "") "(") eqn:E1.
      * apply String.eqb_eq in E1. rewrite E1.
        change (String.eqb "(" ")") with false.
        assert (Hst' : Forall (fun t => exists p, prior t = Return (Some p))
                         ("(" :: stack))
          by (constructor; [now exists 1%Z | exact Hst]).
        destruct (IH ("(" :: stack) out Htok Hst') as [Hiff Hres].
        split; [|exact Hres]. rewrite Hiff. cbn [open_on].
        change (String.eqb "(" "(") with true.
        split; intros [m H]; exists m; cbn [int] in *; lia.
      * destruct (String.eqb (String c "") ")") eqn:E2.
        -- destruct (open_on stack) as [|k] eqn:Hopen.
           ++ rewrite (pop_to_paren_underflow stack out Hopen). cbn [bind].
              split; [|now left]. split; [|reflexivity].
              intros _. exists 0. rewrite take_0. cbn [int count_token]. lia.
           ++ destruct (pop_to_paren_open stack out)
                as (stack' & out' & Hpop & Hopen'); [lia|].
              rewrite Hpop. cbn [bind fst snd].
              destruct (pop_to_paren_split _ _ _ _ Hpop) as (sp & Hsp & _).
              rewrite Hsp in Hst. apply Forall_app in Hst as [_ Hst].
              apply Forall_cons in Hst as [_ Hst].
              destruct (IH stack' out' Htok Hst) as [Hiff Hres].
              split; [|exact Hres]. rewrite Hiff.
              assert (open_on stack' = k) by lia.
              split; intros [m H']; exists m; cbn [int] in *; lia.
        -- apply String.eqb_neq in E2.
           destruct (prior_of_key (String c "") Hk E2) as [q Hq].
           destruct (pop_higher_returns _ q stack out Hq Hst)
             as (stack' & out' & Hpop).
           rewrite Hpop. cbn [bind fst snd].
           pose proof (pop_higher_open _ _ _ _ _ E1 Hpop) as Hopen.
           destruct (pop_higher_split _ _ _ _ _ Hpop) as (sp & Hsp & _).
           rewrite Hsp in Hst. apply Forall_app in Hst as [_ Hst].
           assert (Hst' : Forall (fun t => exists p, prior t = Return (Some p))
                            (String c "" :: stack'))
             by (constructor; [eauto | exact Hst]).
           destruct (IH (String c "" :: stack') out' Htok Hst') as [Hiff Hres].
           split; [|exact Hres]. rewrite Hiff. cbn [open_on]. rewrite E1.
           split; intros [m H']; exists m; cbn [int] in *; lia.
Qed.

(** X19: when [infix_to_postfix] fails.  On tokens of the tokenizer
    (literals, operators and parentheses) the conversion raises
    [IndexError] exactly when some prefix of the tokens holds more [")"]
    than ["("], and returns a list otherwise: it has no other failure, and
    an unclosed ["("] is no failure for it. *)
Theorem infix_to_postfix_underflow :
  forall token_list,
    Forall (fun t => literal t \/ operator_token t) token_list ->
    (infix_to_postfix token_list = Raise IndexError
     <-> exists n, count_token "(" (take n token_list)
                   < count_token ")" (take n token_list))
    /\ (infix_to_postfix token_list = Raise IndexError
        \/ exists output_list, infix_to_postfix token_list = Return output_list).
Proof.
  intros token_list Htok.
  exact (infix_loop_underflow token_list [] [] Htok (List.Forall_nil _)).
Qed.

Lemma infix_to_postfix_underflow_witness :
  infix_to_postfix ["("; "1"; ")"; ")"; "("] = Raise IndexError.
Proof.
  assert (Hop : forall c, isdigit c = false ->
                  is_Some (operators_priors !! chr c) ->
                  literal (chr c) \/ operator_token (chr c))
    by (intros c Hd Hk; right; now exists c).
  assert (Htok : Forall (fun t => literal t \/ operator_token t)
                   ["("; "1"; ")"; ")"; "("]).
  { repeat (apply List.Forall_cons;
            [first [ apply Hop; [reflexivity | vm_compute; eauto]
                   | left; repeat split; vm_compute; lia ]|]).
    apply List.Forall_nil. }
  apply (proj1 (infix_to_postfix_underflow _ Htok)).
  exists 4. vm_compute. lia.
Defined.

(** ** What reaches the evaluation *)

Lemma count_token_In (x : string) (token_list : list string) :
  1 <= count_token x token_list <-> In x token_list.
Proof.
  induction token_list as [|t rest IH]; cbn [count_token In]; [lia|].
  destruct (String.eqb_spec t x) as [->|Hne]; cbn [int].
  - split; [now left | lia].
  - rewrite <- IH. split; [intros H; right; lia | intros [H|H]; [contradiction | lia]].
Qed.

Lemma operator_token_cases (t : string) :
  operator_token t ->
  t = "(" \/ t = ")" \/ (exists op, t = symbol op) \/ t = "~".
Proof.
  intros (c & -> & _ & Hk). revert Hk. unfold operators_priors, chr.
  repeat (rewrite lookup_insert; case_decide as E;
          [rewrite <- E; intros _;
           first [ left; reflexivity
                 | right; left; reflexivity
                 | right; right; left;
                   first [ now exists Add | now exists Sub | now exists Mul
                         | now exists Div | now exists Colon ]
                 | right; right; right; reflexivity ]
          | clear E]).
  rewrite lookup_empty. intros [x Hx]. discriminate.
Qed.

(** X20: what reaches [postfix_calc].  When [check_parentheses] accepts
    tokens of the tokenizer and [infix_to_postfix] returns, the postfix
    list holds literals, signs of binary operators and ["~"] only: no
    parenthesis is left in it, so [math_operation], whose last branch
    multiplies for every sign it does not know, is called with [*] only
    there. *)
Theorem validated_postfix_tokens :
  forall token_list output_list,
    Forall (fun t => literal t \/ operator_token t) token_list ->
    check_parentheses token_list = Return tt ->
    infix_to_postfix token_list = Return output_list ->
    Forall postfix_token output_list
    /\ count_token "(" output_list = 0
    /\ count_token ")" output_list = 0.
Proof.
  intros ts out Htok Hchk Hconv.
  destruct (infix_loop_keeps ts [] [] out Hconv eq_refl)
    as (_ & Hcnt & Hclose & Hopen).
  cbn [count_token] in Hcnt, Hclose, Hopen.
  assert (Hbal : count_token "(" ts = count_token ")" ts).
  { destruct ts as [|t0 [|t1 rest]]; try discriminate.
    unfold check_parentheses in Hchk.
    cbn [item lookup list_lookup bind drop] in Hchk.
    change (drop 0 rest) with rest in Hchk.
    apply check_loop_accepts in Hchk as [_ Hchk]. cbn [count_token]. lia. }
  assert (Ho : count_token "(" out = 0) by lia.
  split; [|split; [exact Ho | lia]].
  apply List.Forall_forall. intros t Hin.
  apply count_token_In in Hin.
  destruct (String.eqb_spec "(" t) as [<-|H1]; [lia|].
  destruct (String.eqb_spec ")" t) as [<-|H2]; [lia|].
  rewrite (Hcnt t) in Hin by (apply String.eqb_neq; assumption).
  apply count_token_In in Hin.
  pose proof (proj1 (List.Forall_forall _ _) Htok t Hin) as [Hl|Hop].
  - now left.
  - destruct (operator_token_cases t Hop) as [->|[->|[H|H]]];
      [contradiction | contradiction | right; now left | right; now right].
Qed.

Lemma validated_postfix_tokens_witness :
  Forall postfix_token ["1"; "2"; "+"; "3"; "*"].
Proof.
  assert (Hop : forall c, isdigit c = false ->
                  is_Some (operators_priors !! chr c) ->
                  literal (chr c) \/ operator_token (chr c))
    by (intros c Hd Hk; right; now exists c).
  assert (Htok : Forall (fun t => literal t \/ operator_token t)
                   ["("; "1"; "+"; "2"; ")"; "*"; "3"]).
  { repeat (apply List.Forall_cons;
            [first [ apply Hop; [reflexivity | vm_compute; eauto]
                   | left; repeat split; vm_compute; lia ]|]).
    apply List.Forall_nil. }
  exact (proj1 (validated_postfix_tokens _ _ Htok eq_refl eq_refl)).
Defined.

(** ** The stack of the evaluation *)

Lemma postfix_loop_height (postfix_list : list string) :
  forall stack,
    Forall (fun t => t <> "") postfix_list ->
    raises_in
      (fun e => e = ValueError \/ e = OverflowError \/ e = SystemExit
                \/ (e = IndexError
                    /\ (stack_height postfix_list (length stack) = None
                        \/ stack_height postfix_list (length stack) = Some 0)))
      (postfix_loop postfix_list stack)
    /\ (forall res,
          postfix_loop postfix_list stack = Return res ->
          exists k, stack_height postfix_list (length stack) = Some (S k)).
Proof.
  induction postfix_list as [|t rest IH]; intros stack Hne.
  - destruct stack as [|res stack]; cbn [postfix_loop stack_height length raises_in].
    + split; [intuition|discriminate].
    + split; [exact I | eauto].
  - apply Forall_cons in Hne as [Ht Hne].
    destruct t as [|c t]; [contradiction|].
    cbn [postfix_loop index String.get bind stack_height is_number].
    destruct (isdigit c).
    { pose proof (cast_number_raises (String c t)) as Hc.
      destruct (cast_number (String c t)) as [v|e|]; cbn [bind raises_in] in *;
        [exact (IH (v :: stack) Hne) | | contradiction].
      split; [now left | discriminate]. }
    destruct (String.eqb (String c t) "~").
    { destruct stack as [|arg2 stack]; cbn [length raises_in].
      - split; [intuition | discriminate].
      - pose proof (math_operation_raises (PyInt 0) arg2 (String c t)) as Hm.
        destruct (math_operation (PyInt 0) arg2 (String c t)) as [res|e|];
          cbn [bind raises_in] in *;
          [exact (IH (res :: stack) Hne) | | contradiction].
        split; [tauto | discriminate]. }
    destruct stack as [|arg2 [|arg1 stack]]; cbn [length raises_in].
    + split; [intuition | discriminate].
    + split; [intuition | discriminate].
    + pose proof (math_operation_raises arg1 arg2 (String c t)) as Hm.
      destruct (math_operation arg1 arg2 (String c t)) as [res|e|];
        cbn [bind raises_in] in *;
        [exact (IH (res :: stack) Hne) | | contradiction].
      split; [tauto | discriminate].
Qed.

(** X21: the stack discipline of [postfix_calc].  Count a value for each
    number, one value needed and left by ["~"], two values taken and one
    left by every other token.  [postfix_calc] returns only when no token
    finds too few values and at least one value is left at the end, and it
    raises [IndexError] only when some token finds too few or none is
    left; values left below the result are never looked at. *)
Theorem postfix_calc_stack_height :
  forall postfix_list,
    Forall (fun t => t <> "") postfix_list ->
    (forall res,
        postfix_calc postfix_list = Return res ->
        exists k, stack_height postfix_list 0 = Some (S k))
    /\ (postfix_calc postfix_list = Raise IndexError ->
        stack_height postfix_list 0 = None
        \/ stack_height postfix_list 0 = Some 0)
    /\ ((exists k, stack_height postfix_list 0 = Some (S k)) ->
        (exists res, postfix_calc postfix_list = Return res)
        \/ postfix_calc postfix_list = Raise ValueError
        \/ postfix_calc postfix_list = Raise OverflowError
        \/ postfix_calc postfix_list = Raise SystemExit).
Proof.
  intros pl Hne. unfold postfix_calc.
  destruct (postfix_loop_height pl [] Hne) as [Hr Hret].
  cbn [length] in *.
  split; [exact Hret|].
  destruct (postfix_loop pl []) as [res|e|]; cbn [raises_in] in Hr.
  - split; [discriminate | eauto].
  - split.
    + intros [= ->].
      destruct Hr as [H|[H|[H|[_ H]]]]; try discriminate. exact H.
    + intros [k Hk]. right.
      destruct Hr as [->|[->|[->|[_ [H|H]]]]]; auto; congruence.
  - contradiction.
Qed.

Lemma postfix_calc_stack_height_witness :
  stack_height ["2"; "*"; "3"; "-"] 0 = None
  \/ stack_height ["2"; "*"; "3"; "-"] 0 = Some 0.
Proof.
  assert (Hne : Forall (fun t : string => t <> "") ["2"; "*"; "3"; "-"])
    by (repeat constructor; discriminate).
  exact (proj1 (proj2 (postfix_calc_stack_height _ Hne)) eq_refl).
Defined.
